(** * The goal-directed action planner of talky

    A shallow embedding of [planning/state_manager.py],
    [planning/knowledge_base.py] and [planning/astar_planner.py].

    Two views of the same code are kept:
    - the _value_ view, where a [State] is the pair of its facts map and its
      goal set, and every method is a pure function; the planner only ever
      reads states after they are built, so it is modelled in this view;
    - the _object_ view (module [Heap]), where a [State] is an object in a
      store that points to a separate dict object and a separate set object,
      and methods update the store.  It decides what [copy] and
      [apply_action_effects] share with their argument. *)

From Stdlib Require Import ZArith Floats.PrimFloat Numbers.Cyclic.Int63.Uint63.
From stdpp Require Import gmap strings list fin_maps sorting pretty.

Local Open Scope string_scope.
Local Open Scope list_scope.
Local Open Scope nat_scope.

(** ** Python values stored in facts, preconditions and effects *)

(** Facts hold [None], booleans, integers and strings. *)
Inductive value :=
  | VNone
  | VBool (b : bool)
  | VInt (n : Z)
  | VStr (s : string).

#[global] Instance value_eq_dec : EqDecision value.
Proof. solve_decision. Defined.

(** [bool] is a subclass of [int]: [True] counts as 1 and [False] as 0 in
    every numeric comparison. *)
Definition as_number (v : value) : option Z :=
  match v with
  | VBool b => Some (Z.b2z b)
  | VInt n => Some n
  | _ => None
  end.

(** Python's [a == b]. *)
Definition py_eq (a b : value) : bool :=
  match as_number a, as_number b with
  | Some x, Some y => (x =? y)%Z
  | None, None =>
      match a, b with
      | VNone, VNone => true
      | VStr s, VStr t => String.eqb s t
      | _, _ => false
      end
  | _, _ => false
  end.

(** Python's [a != b] (the default [__ne__] of these types inverts [==]). *)
Definition py_ne (a b : value) : bool := negb (py_eq a b).

(** Python's [v is True]: identity with the [True] singleton. *)
Definition is_True (v : value) : bool :=
  match v with
  | VBool true => true
  | _ => false
  end.

(** [a == b] on dictionaries: same number of keys, and every key of [a] is a
    key of [b] with an equal value. *)
Definition dict_eq (a b : gmap string value) : bool :=
  (size a =? size b)%nat &&
  forallb (λ kv, match b !! kv.1 with
                 | Some w => py_eq kv.2 w
                 | None => false
                 end) (map_to_list a).

(** ** state_manager.py, class State (value view) *)

Record State := mkState {
  facts : gmap string value;
  goals : gset string
}.

Definition has_fact (self : State) (fact_name : string) : bool :=
  match facts self !! fact_name with
  | Some _ => true
  | None => false
  end.

Definition get_fact (self : State) (fact_name : string) (default : value) : value :=
  match facts self !! fact_name with
  | Some v => v
  | None => default
  end.

Definition set_fact (self : State) (fact_name : string) (v : value) : State :=
  mkState (<[fact_name := v]> (facts self)) (goals self).

Definition remove_fact (self : State) (fact_name : string) : State :=
  if has_fact self fact_name
  then mkState (delete fact_name (facts self)) (goals self)
  else self.

Definition add_goal (self : State) (goal : string) : State :=
  mkState (facts self) ({[goal]} ∪ goals self).

Definition remove_goal (self : State) (goal : string) : State :=
  mkState (facts self) (goals self ∖ {[goal]}).

Definition has_goal (self : State) (goal : string) : bool :=
  bool_decide (goal ∈ goals self).

Definition is_goal_satisfied (self : State) (goal : string) : bool :=
  has_fact self goal && is_True (get_fact self goal VNone).

Definition all_goals_satisfied (self : State) : bool :=
  forallb (is_goal_satisfied self) (elements (goals self)).

(** [deepcopy] of a dict whose values are immutable: the same association. *)
Definition deepcopy (d : gmap string value) : gmap string value := d.

(** [State(facts)]: [self.facts = facts or {}], [self.goals = set()]. *)
Definition State_init (d : option (gmap string value)) : State :=
  match d with
  | Some d' => if bool_decide (d' = ∅) then mkState ∅ ∅ else mkState d' ∅
  | None => mkState ∅ ∅
  end.

Definition copy (self : State) : State :=
  let new_state := State_init (Some (deepcopy (facts self))) in
  mkState (facts new_state) (goals self).

(** [State.__eq__] against another [State]. *)
Definition State_eq (self other : State) : bool :=
  dict_eq (facts self) (facts other) && bool_decide (goals self = goals other).

(** The tuple that [State.__hash__] hashes: the items sorted (keys are
    distinct, so the order is the order of the keys) and the sorted goals. *)
Definition key_le (x y : string * value) : Prop := String.le x.1 y.1.

#[global] Instance key_le_dec : RelDecision key_le.
Proof. intros x y. unfold key_le. apply _. Defined.

Definition hash_key (self : State) : list (string * value) * list string :=
  (merge_sort key_le (map_to_list (facts self)),
   merge_sort String.le (elements (goals self))).

Section Hash.
(** Python's [hash] on such a tuple: a function of the tuple's value that
    changes from one interpreter run to the next. *)
Variable py_hash : list (string * value) * list string → Z.

Definition State_hash (self : State) : Z := py_hash (hash_key self).
End Hash.

(** ** knowledge_base.py *)

(** An action is a dict; every key the code reads with [.get] may be absent. *)
Record Action := mkAction {
  act_name : option string;
  act_parameters : option (list string);
  act_preconditions : option (gmap string value);
  act_effects : option (gmap string value);
  act_cost : option float;
  act_execution_time : option float;
  act_dependencies : option (list string);
  act_api_endpoint : option string;
  act_description : option string
}.

Definition present {A} (o : option A) : bool :=
  match o with
  | Some _ => true
  | None => false
  end.

(** Truth value of the dict, as in [if current.action:]: it has a key. *)
Definition action_truthy (a : Action) : bool :=
  present (act_name a) || present (act_parameters a) ||
  present (act_preconditions a) || present (act_effects a) ||
  present (act_cost a) || present (act_execution_time a) ||
  present (act_dependencies a) || present (act_api_endpoint a) ||
  present (act_description a).

(** A dict literal of the catalog: all nine keys are given. *)
Definition entry (name : string) (parameters : list string)
    (preconditions effects : list (string * value))
    (cost execution_time : float) (dependencies : list string)
    (api_endpoint description : string) : Action :=
  mkAction (Some name) (Some parameters)
    (Some (list_to_map preconditions)) (Some (list_to_map effects))
    (Some cost) (Some execution_time) (Some dependencies)
    (Some api_endpoint) (Some description).

Definition T : value := VBool true.

Module KnowledgeBase.

Definition CheckWeather : Action :=
  entry "CheckWeather" ["location"]
    [("location_valid", T)]
    [("weather_known", T); ("weather_location", VNone)]
    1.0 2.0 [] "weather_service" "Check weather conditions for a location".

Definition _initialize_actions : list Action :=
  [ CheckWeather;
    entry "SendEmail" ["recipient"; "subject"; "body"]
      [("recipient_valid", T); ("email_content_ready", T)]
      [("email_sent", T)]
      2.0 3.0 [] "email_service" "Send an email to a recipient";
    entry "BookHotel" ["location"; "check_in"; "check_out"; "guests"]
      [("location_valid", T); ("dates_valid", T)]
      [("hotel_booked", T)]
      5.0 10.0 ["CheckWeather"] "hotel_service" "Book a hotel room";
    entry "SetReminder" ["datetime"; "message"]
      [("datetime_valid", T)]
      [("reminder_set", T)]
      1.0 1.0 [] "reminder_service" "Set a reminder or alarm";
    entry "SearchFlights" ["origin"; "destination"; "date"]
      [("origin_valid", T); ("destination_valid", T); ("date_valid", T)]
      [("flights_found", T)]
      3.0 5.0 [] "flight_service" "Search for flight options";
    entry "CreateCalendarEvent" ["title"; "datetime"; "duration"]
      [("datetime_valid", T); ("title_provided", T)]
      [("calendar_event_created", T)]
      1.5 2.0 [] "calendar_service" "Create a calendar event";
    entry "PlanTrip" ["location"; "date"; "duration"]
      [("location_valid", T); ("date_valid", T)]
      [("trip_planned", T)]
      8.0 15.0 ["CheckWeather"; "SearchFlights"; "BookHotel"]
      "trip_planning_service" "Plan a multi-step trip";
    entry "CheckAttendance" [] [] [("attendance_known", T)]
      2.0 3.0 [] "erp_service" "Check overall student attendance records";
    entry "CheckSubjectAttendance" ["subject"] []
      [("subject_attendance_known", T)]
      1.5 2.0 [] "erp_service" "Check attendance for a specific subject";
    entry "CheckMonthlyAttendance" [] [] [("monthly_attendance_known", T)]
      1.5 2.0 [] "erp_service" "Check this month's attendance";
    entry "CheckTimetable" ["date"] [] [("timetable_known", T)]
      2.0 3.0 [] "erp_service" "Check full class timetable or schedule";
    entry "CheckSubjectSchedule" ["subject"] []
      [("subject_schedule_known", T)]
      1.5 2.0 [] "erp_service" "Find when a specific subject is scheduled";
    entry "CheckTimeSchedule" ["time"] [] [("time_schedule_known", T)]
      1.5 2.0 [] "erp_service"
      "Find what subject is scheduled at a specific time";
    entry "CheckCafeteriaMenu" [] [] [("cafeteria_menu_known", T)]
      1.5 2.0 [] "erp_service" "Check full cafeteria or mess menu";
    entry "CheckBreakfastMenu" [] [] [("breakfast_menu_known", T)]
      1.0 2.0 [] "erp_service" "Check breakfast menu";
    entry "CheckLunchMenu" [] [] [("lunch_menu_known", T)]
      1.0 2.0 [] "erp_service" "Check lunch menu";
    entry "CheckDinnerMenu" [] [] [("dinner_menu_known", T)]
      1.0 2.0 [] "erp_service" "Check dinner menu";
    entry "CheckSnackMenu" [] [] [("snack_menu_known", T)]
      1.0 2.0 [] "erp_service" "Check snack menu";
    entry "SearchInternet" ["query"]
      [("query_valid", T)]
      [("internet_search_complete", T)]
      3.0 5.0 [] "perplexity_search" "Search the internet for information";
    entry "GenerateAttendancePDF" [] [] [("attendance_pdf_sent", T)]
      3.0 5.0 [] "pdf_service" "Generate and send attendance PDF report";
    entry "GenerateTimetablePDF" ["date"] [] [("timetable_pdf_sent", T)]
      3.0 5.0 [] "pdf_service" "Generate and send timetable PDF report";
    entry "GenerateCafeteriaPDF" [] [] [("cafeteria_pdf_sent", T)]
      3.0 5.0 [] "pdf_service"
      "Generate and send cafeteria menu PDF report";
    entry "Greeting" [] [] [("greeting_responded", T)]
      0.5 1.0 [] "openai_conversation" "Respond to greetings naturally";
    entry "SmallTalk" [] [] [("smalltalk_responded", T)]
      0.5 1.0 [] "openai_conversation" "Engage in casual conversation";
    entry "Conversation" [] [] [("conversation_responded", T)]
      1.0 2.0 [] "openai_conversation" "Handle nuanced conversations" ].

(** [self.actions.copy()]: a new list of the same actions. *)
Definition get_available_actions (actions : list Action) : list Action :=
  actions.


(** The loop of [check_preconditions] over [preconditions.items()], on a
    plain dict of facts. *)
Fixpoint check_items (items : list (string * value))
    (state : gmap string value) : bool :=
  match items with
  | [] => true
  | (fact_name, required_value) :: rest =>
      match state !! fact_name with
      | None => false
      | Some v =>
          if py_ne v required_value then false else check_items rest state
      end
  end.

Definition check_preconditions (action : Action)
    (state : gmap string value) : bool :=
  let preconditions := default ∅ (act_preconditions action) in
  check_items (map_to_list preconditions) state.

(** The loop of [apply_effects] over [effects.items()]. *)
Fixpoint apply_items (items : list (string * value))
    (new_state : gmap string value) : gmap string value :=
  match items with
  | [] => new_state
  | (fact_name, fact_value) :: rest =>
      match fact_value with
      | VNone => apply_items rest (<[fact_name := VBool true]> new_state)
      | _ => apply_items rest (<[fact_name := fact_value]> new_state)
      end
  end.

Definition apply_effects (action : Action) (state : gmap string value)
    : gmap string value :=
  let new_state := state in
  let effects := default ∅ (act_effects action) in
  apply_items (map_to_list effects) new_state.

(** [base_cost + execution_time * 0.1] in binary64; the literal is the
    double nearest to one tenth. *)
Definition estimate_action_cost (action : Action)
    (state : option (gmap string value)) : float :=
  let base_cost := default 1.0%float (act_cost action) in
  let execution_time := default 1.0%float (act_execution_time action) in
  (base_cost + execution_time * 0x1.999999999999ap-4)%float.

Definition get_action_dependencies (action : Action) : list string :=
  default [] (act_dependencies action).

(** [for dep in dependencies: if dep not in executed_actions] *)
Fixpoint all_executed (dependencies : list string)
    (executed_actions : gset (option string)) : bool :=
  match dependencies with
  | [] => true
  | dep :: rest =>
      if negb (bool_decide (Some dep ∈ executed_actions)) then false
      else all_executed rest executed_actions
  end.

(** [for action in actions] of [validate_action_sequence]; the name that
    [action.get("name")] gives is [None] for a nameless action. *)
Fixpoint sequence_loop (actions : list Action)
    (executed_actions : gset (option string)) : bool :=
  match actions with
  | [] => true
  | action :: rest =>
      let action_name := act_name action in
      let dependencies := get_action_dependencies action in
      if negb (all_executed dependencies executed_actions) then false
      else sequence_loop rest ({[action_name]} ∪ executed_actions)
  end.

Definition validate_action_sequence (actions : list Action) : bool :=
  sequence_loop actions ∅.

End KnowledgeBase.

(** ** state_manager.py, class StateManager (value view) *)

Module StateManager.

Fixpoint set_items (items : list (string * value)) (new_state : State)
    : State :=
  match items with
  | [] => new_state
  | (fact_name, fact_value) :: rest =>
      set_items rest (set_fact new_state fact_name fact_value)
  end.

Definition apply_action_effects (action : Action) (state : State) : State :=
  let new_state := copy state in
  let effects := default ∅ (act_effects action) in
  set_items (map_to_list effects) new_state.

Fixpoint check_items (items : list (string * value)) (state : State)
    : bool :=
  match items with
  | [] => true
  | (fact_name, required_value) :: rest =>
      if negb (has_fact state fact_name) then false
      else if py_ne (get_fact state fact_name VNone) required_value
           then false
           else check_items rest state
  end.

Definition check_preconditions (action : Action) (state : State) : bool :=
  let preconditions := default ∅ (act_preconditions action) in
  check_items (map_to_list preconditions) state.

Fixpoint generate_successor_states (state : State)
    (available_actions : list Action) : list (State * Action) :=
  match available_actions with
  | [] => []
  | action :: rest =>
      if check_preconditions action state
      then (apply_action_effects action state, action)
             :: generate_successor_states state rest
      else generate_successor_states state rest
  end.

End StateManager.

(** ** The heapq module of the Python library

    A list used as an array-backed binary heap, ordered by the elements'
    [__lt__].  [None] stands for an [IndexError]; the loops are bounded by
    the positions they walk, and a loop that would need more steps than its
    bound also gives [None]. *)

Module heapq.
Section Heapq.
Context {A : Type} (lt : A → A → bool).

(** [heap[i] = x], which raises when [i] is out of range. *)
Definition list_set (heap : list A) (i : nat) (x : A) : option (list A) :=
  if bool_decide (i < length heap) then Some (<[i := x]> heap) else None.

(** [heap.pop()] *)
Definition list_pop (heap : list A) : option (A * list A) :=
  match last heap with
  | Some x => Some (x, take (length heap - 1) heap)
  | None => None
  end.

Fixpoint _siftdown_loop (fuel : nat) (heap : list A) (newitem : A)
    (startpos pos : nat) : option (list A) :=
  if bool_decide (startpos < pos) then
    match fuel with
    | O => None
    | S fuel' =>
        let parentpos := (pos - 1) / 2 in
        parent ← heap !! parentpos;
        if lt newitem parent then
          heap' ← list_set heap pos parent;
          _siftdown_loop fuel' heap' newitem startpos parentpos
        else list_set heap pos newitem
    end
  else list_set heap pos newitem.

Definition _siftdown (heap : list A) (startpos pos : nat)
    : option (list A) :=
  newitem ← heap !! pos;
  _siftdown_loop pos heap newitem startpos pos.

Fixpoint _siftup_loop (fuel : nat) (heap : list A) (endpos pos childpos : nat)
    : option (list A * nat) :=
  if bool_decide (childpos < endpos) then
    match fuel with
    | O => None
    | S fuel' =>
        let rightpos := childpos + 1 in
        childpos' ←
          (if bool_decide (rightpos < endpos) then
             c ← heap !! childpos;
             r ← heap !! rightpos;
             Some (if negb (lt c r) then rightpos else childpos)
           else Some childpos);
        x ← heap !! childpos';
        heap' ← list_set heap pos x;
        _siftup_loop fuel' heap' endpos childpos' (2 * childpos' + 1)
    end
  else Some (heap, pos).

Definition _siftup (heap : list A) (pos : nat) : option (list A) :=
  let endpos := length heap in
  let startpos := pos in
  newitem ← heap !! pos;
  '(heap', pos') ← _siftup_loop (length heap) heap endpos pos (2 * pos + 1);
  heap'' ← list_set heap' pos' newitem;
  _siftdown heap'' startpos pos'.

Definition heappush (heap : list A) (item : A) : option (list A) :=
  let heap := (heap ++ [item])%list in
  _siftdown heap 0 (length heap - 1).

Definition heappop (heap : list A) : option (A * list A) :=
  '(lastelt, heap) ← list_pop heap;
  match heap with
  | [] => Some (lastelt, heap)
  | returnitem :: _ =>
      heap' ← list_set heap 0 lastelt;
      heap'' ← _siftup heap' 0;
      Some (returnitem, heap'')
  end.

(** [for i in reversed(range(k)): _siftup(x, i)] *)
Fixpoint heapify_loop (k : nat) (x : list A) : option (list A) :=
  match k with
  | O => Some x
  | S i => x' ← _siftup x i; heapify_loop i x'
  end.

Definition heapify (x : list A) : option (list A) :=
  let n := length x in
  heapify_loop (n / 2) x.

End Heapq.
End heapq.

(** ** astar_planner.py *)

#[warnings="-register-all"] Inductive Node := mkNode {
  n_state : State;
  n_parent : option Node;
  n_action : option Action;
  g_cost : float;
  h_cost : float;
  f_cost : float
}.

(** [Node.__init__] *)
Definition Node_init (state : State) (parent : option Node)
    (action : option Action) (g_cost h_cost : float) : Node :=
  mkNode state parent action g_cost h_cost (g_cost + h_cost)%float.

(** [Node.__lt__] *)
Definition Node_lt (self other : Node) : bool :=
  PrimFloat.ltb (f_cost self) (f_cost other).

(** A Python set of states, looked up through [__hash__] and [__eq__]; the
    hash agrees with [State_eq], so membership is the presence of an equal
    element. *)
Definition state_in (s : State) (set : list State) : bool :=
  existsb (λ t, State_eq t s) set.

Definition state_add (s : State) (set : list State) : list State :=
  if state_in s set then set else s :: set.

(** The [return] statement through which [plan] leaves. *)
Inductive exit :=
  | GoalAlreadySatisfied
  | GoalReached
  | NoPlanFound.

#[global] Instance exit_eq_dec : EqDecision exit.
Proof. solve_decision. Defined.

(** What [plan] returns, with the [return] taken, the value of [iteration]
    and the length of the open set at that point. *)
Record outcome := mkOutcome {
  taken : exit;
  returned : list Action;
  iterations : Z;
  queued : nat
}.

(** Conversion of a small Python int to a float. *)
Definition float_of_nat (n : nat) : float :=
  PrimFloat.of_uint63 (Uint63.of_Z (Z.of_nat n)).

Module AStarPlanner.
Section Planner.
(** [self.kb.actions] *)
Variable actions : list Action.

Definition calculate_heuristic (state goal_state : State) : float :=
  let unsatisfied_goals :=
    length (List.filter (λ goal, negb (is_goal_satisfied state goal))
              (elements (goals goal_state))) in
  let estimated_actions := (float_of_nat unsatisfied_goals * 1.5)%float in
  (estimated_actions * 2.0)%float.

Definition _is_goal_reached (state goal_state : State) : bool :=
  if bool_decide (goals goal_state = ∅) then false
  else forallb (is_goal_satisfied state) (elements (goals goal_state)).

Definition generate_successors (state : State) : list (State * Action) :=
  let available_actions := KnowledgeBase.get_available_actions actions in
  StateManager.generate_successor_states state available_actions.

(** The loop of [reconstruct_path]; [path.insert(0, a)] puts [a] in front. *)
Fixpoint reconstruct_loop (current : Node) (path : list Action)
    : list Action :=
  match current with
  | mkNode _ (Some parent) action _ _ _ =>
      match action with
      | Some a =>
          if action_truthy a then reconstruct_loop parent (a :: path)
          else reconstruct_loop parent path
      | None => reconstruct_loop parent path
      end
  | mkNode _ None _ _ _ _ => path
  end.

Definition reconstruct_path (goal_node : Node) : list Action :=
  reconstruct_loop goal_node [].

(** [for action in plan] of [validate_plan] *)
Fixpoint validate_loop (plan : list Action) (current_state : State) : bool :=
  match plan with
  | [] => true
  | action :: rest =>
      if negb (StateManager.check_preconditions action current_state)
      then false
      else validate_loop rest
             (StateManager.apply_action_effects action current_state)
  end.

Definition validate_plan (plan : list Action) (initial_state : State)
    : bool :=
  let current_state := copy initial_state in
  validate_loop plan current_state.

(** The scan of the open set for a queued node of the same state that the
    new node beats. *)
Fixpoint better_path (i : nat) (remaining open_set : list Node)
    (new_node : Node) (new_state : State) : option (list Node) :=
  match remaining with
  | [] => Some open_set
  | existing_node :: rest =>
      if State_eq (n_state existing_node) new_state
         && PrimFloat.ltb (f_cost new_node) (f_cost existing_node)
      then
        open_set' ← heapq.list_set open_set i new_node;
        heapq.heapify Node_lt open_set'
      else better_path (S i) rest open_set new_node new_state
  end.

(** [for new_state, action in successors] *)
Fixpoint expand (successors : list (State * Action)) (current_node : Node)
    (goal_state : State) (closed_set : list State)
    (open_set : list Node) (visited_states : list State)
    : option (list Node * list State) :=
  match successors with
  | [] => Some (open_set, visited_states)
  | (new_state, action) :: rest =>
      if state_in new_state closed_set then
        expand rest current_node goal_state closed_set open_set
          visited_states
      else
        let action_cost :=
          KnowledgeBase.estimate_action_cost action
            (Some (facts (n_state current_node))) in
        let new_g_cost := (g_cost current_node + action_cost)%float in
        let new_h_cost := calculate_heuristic new_state goal_state in
        let new_node :=
          Node_init new_state (Some current_node) (Some action)
            new_g_cost new_h_cost in
        if negb (state_in new_state visited_states) then
          open_set' ← heapq.heappush Node_lt open_set new_node;
          expand rest current_node goal_state closed_set open_set'
            (state_add new_state visited_states)
        else
          open_set' ← better_path 0 open_set open_set new_node new_state;
          expand rest current_node goal_state closed_set open_set'
            visited_states
  end.

(** [while open_set and iteration < max_iterations]; one unit of [fuel]
    is spent per pass. *)
Fixpoint search (fuel : nat) (max_iterations : Z) (goal_state : State)
    (iteration : Z) (open_set : list Node)
    (closed_set visited_states : list State) : option outcome :=
  if negb (bool_decide (open_set = [])) && (iteration <? max_iterations)%Z
  then
    match fuel with
    | O => None
    | S fuel' =>
        let iteration := (iteration + 1)%Z in
        '(current_node, open_set) ← heapq.heappop Node_lt open_set;
        if _is_goal_reached (n_state current_node) goal_state then
          Some (mkOutcome GoalReached (reconstruct_path current_node)
                  iteration (length open_set))
        else
          let closed_set := state_add (n_state current_node) closed_set in
          let successors := generate_successors (n_state current_node) in
          '(open_set, visited_states) ←
            expand successors current_node goal_state closed_set open_set
              visited_states;
          search fuel' max_iterations goal_state iteration open_set
            closed_set visited_states
    end
  else Some (mkOutcome NoPlanFound [] iteration (length open_set)).

(** [plan], with its bookkeeping kept in the result. *)
Definition plan_outcome (current_state goal_state : State)
    (max_iterations : Z) : option outcome :=
  if _is_goal_reached current_state goal_state then
    Some (mkOutcome GoalAlreadySatisfied [] 0 0)
  else
    let start_node :=
      Node_init (copy current_state) None None 0.0
        (calculate_heuristic current_state goal_state) in
    let open_set := [start_node] in
    let closed_set := [] in
    let visited_states := [n_state start_node] in
    search (Z.to_nat max_iterations) max_iterations goal_state 0 open_set
      closed_set visited_states.

Definition plan (current_state goal_state : State) (max_iterations : Z)
    : option (list Action) :=
  returned <$> plan_outcome current_state goal_state max_iterations.


End Planner.
End AStarPlanner.

(** The four mutators of a [State], as data, and their value view. *)
Inductive mutation :=
  | SetFact (fact_name : string) (v : value)
  | RemoveFact (fact_name : string)
  | AddGoal (goal : string)
  | RemoveGoal (goal : string).

Definition mutate_value (m : mutation) (s : State) : State :=
  match m with
  | SetFact k v => set_fact s k v
  | RemoveFact k => remove_fact s k
  | AddGoal g => add_goal s g
  | RemoveGoal g => remove_goal s g
  end.

(** ** state_manager.py in the object view

    A store of objects.  A [State] object holds two references: to its
    [facts] dict and to its [goals] set.  Every method takes the store and
    returns the store it leaves; [None] is an [AttributeError] or
    [TypeError] on a reference of the wrong kind. *)

Module Heap.

Abbreviation loc := positive.

Inductive obj :=
  | ODict (d : gmap string value)
  | OSet (s : gset string)
  | OState (facts_ref goals_ref : loc).

Abbreviation heap := (gmap positive obj).

Definition alloc (o : obj) (h : heap) : loc * heap :=
  let l := fresh (dom h) in (l, <[l := o]> h).

Definition dict_at (h : heap) (l : loc) : option (gmap string value) :=
  match h !! l with
  | Some (ODict d) => Some d
  | _ => None
  end.

Definition set_at (h : heap) (l : loc) : option (gset string) :=
  match h !! l with
  | Some (OSet s) => Some s
  | _ => None
  end.

Definition state_at (h : heap) (l : loc) : option (loc * loc) :=
  match h !! l with
  | Some (OState f g) => Some (f, g)
  | _ => None
  end.

(** The facts and goals that a [State] object holds in a store. *)
Definition view (h : heap) (self : loc) : option State :=
  '(f, g) ← state_at h self;
  d ← dict_at h f;
  s ← set_at h g;
  Some (mkState d s).

(** [State(facts)] *)
Definition State_init (facts : option loc) (h : heap) : option (loc * heap) :=
  '(f, h) ←
    match facts with
    | Some f =>
        d ← dict_at h f;
        if bool_decide (d = ∅) then Some (alloc (ODict ∅) h)
        else Some (f, h)
    | None => Some (alloc (ODict ∅) h)
    end;
  let '(g, h) := alloc (OSet ∅) h in
  Some (alloc (OState f g) h).

Definition set_fact (self : loc) (fact_name : string) (v : value)
    (h : heap) : option heap :=
  '(f, _) ← state_at h self;
  d ← dict_at h f;
  Some (<[f := ODict (<[fact_name := v]> d)]> h).

Definition remove_fact (self : loc) (fact_name : string) (h : heap)
    : option heap :=
  '(f, _) ← state_at h self;
  d ← dict_at h f;
  match d !! fact_name with
  | Some _ => Some (<[f := ODict (delete fact_name d)]> h)
  | None => Some h
  end.

Definition add_goal (self : loc) (goal : string) (h : heap) : option heap :=
  '(_, g) ← state_at h self;
  s ← set_at h g;
  Some (<[g := OSet ({[goal]} ∪ s)]> h).

Definition remove_goal (self : loc) (goal : string) (h : heap)
    : option heap :=
  '(_, g) ← state_at h self;
  s ← set_at h g;
  Some (<[g := OSet (s ∖ {[goal]})]> h).

(** [deepcopy(self.facts)]: a new dict; the values are immutable. *)
Definition deepcopy (f : loc) (h : heap) : option (loc * heap) :=
  d ← dict_at h f;
  Some (alloc (ODict d) h).

Definition copy (self : loc) (h : heap) : option (loc * heap) :=
  '(f, g) ← state_at h self;
  '(f', h) ← deepcopy f h;
  '(new_state, h) ← State_init (Some f') h;
  s ← set_at h g;
  let '(g', h) := alloc (OSet s) h in
  '(nf, _) ← state_at h new_state;
  Some (new_state, <[new_state := OState nf g']> h).

(** [self == other] for two [State] objects. *)
Definition State_eq (self other : loc) (h : heap) : option bool :=
  a ← view h self;
  b ← view h other;
  Some (dict_eq (facts a) (facts b) && bool_decide (goals a = goals b)).

Definition State_hash (py_hash : list (string * value) * list string → Z)
    (self : loc) (h : heap) : option Z :=
  a ← view h self;
  Some (py_hash (hash_key a)).

Fixpoint set_items (items : list (string * value)) (new_state : loc)
    (h : heap) : option heap :=
  match items with
  | [] => Some h
  | (fact_name, fact_value) :: rest =>
      h ← set_fact new_state fact_name fact_value h;
      set_items rest new_state h
  end.

(** [StateManager.apply_action_effects] *)
Definition apply_action_effects (action : Action) (state : loc) (h : heap)
    : option (loc * heap) :=
  '(new_state, h) ← copy state h;
  let effects := default ∅ (act_effects action) in
  h ← set_items (map_to_list effects) new_state h;
  Some (new_state, h).

Definition mutate (self : loc) (m : mutation) (h : heap) : option heap :=
  match m with
  | SetFact k v => set_fact self k v h
  | RemoveFact k => remove_fact self k h
  | AddGoal g => add_goal self g h
  | RemoveGoal g => remove_goal self g h
  end.

Fixpoint mutate_all (self : loc) (ms : list mutation) (h : heap)
    : option heap :=
  match ms with
  | [] => Some h
  | m :: rest => h ← mutate self m h; mutate_all self rest h
  end.

End Heap.

(** ** execution/action_executor.py: the parameters handed to an action *)

Module ActionExecutor.
Section Extract.
(** Python's [str.lower]. *)
Variable lower : string → string.

(** [for param in required_params] *)
Fixpoint extract_loop (required_params : list string)
    (intent_parameters action_params : gmap string value)
    : gmap string value :=
  match required_params with
  | [] => action_params
  | param :: rest =>
      match intent_parameters !! param with
      | Some v =>
          extract_loop rest intent_parameters (<[param := v]> action_params)
      | None =>
          match intent_parameters !! lower param with
          | Some v =>
              extract_loop rest intent_parameters
                (<[param := v]> action_params)
          | None => extract_loop rest intent_parameters action_params
          end
      end
  end.

Definition _extract_action_parameters (action : Action)
    (intent_parameters : gmap string value) : gmap string value :=
  let action_params := ∅ in
  let required_params := default [] (act_parameters action) in
  extract_loop required_params intent_parameters action_params.

End Extract.
End ActionExecutor.

(** ** nlp/intent_classifier.py: the choice among candidate intents *)

Record Intent := mkIntent {
  i_name : string;
  i_confidence : float;
  i_parameters : gmap string value
}.

Module IntentClassifier.

Definition conversational_intents : list string :=
  ["Greeting"; "SmallTalk"; "Conversation"].

(** [x in conversational_intents] *)
Definition is_conversational (x : string) : bool :=
  bool_decide (x ∈ conversational_intents).

(** [max(intents, key=lambda x: x.confidence)] on a non-empty list: the
    first element that no later one exceeds. *)
Definition max_by_confidence (first : Intent) (rest : list Intent) : Intent :=
  foldl (λ best i,
           if PrimFloat.ltb (i_confidence best) (i_confidence i) then i
           else best) first rest.

(** The doubles nearest to 0.7, 0.1, 0.2 and 0.6; 0.75 is a double. *)
Definition c_0_7 : float := 0x1.6666666666666p-1.
Definition c_0_1 : float := 0x1.999999999999ap-4.
Definition c_0_2 : float := 0x1.999999999999ap-3.
Definition c_0_6 : float := 0x1.3333333333333p-1.

Definition handle_ambiguity (intents : list Intent) : option Intent :=
  match intents with
  | [] => None
  | i0 :: rest =>
      if bool_decide (length intents = 1)
         && PrimFloat.ltb c_0_7 (i_confidence i0)
      then Some i0
      else if bool_decide (1 < length intents)
              && forallb (λ i, is_conversational (i_name i)) intents
      then Some (max_by_confidence i0 rest)
      else
        match rest with
        | i1 :: _ =>
            let top_confidence := i_confidence i0 in
            let second_confidence := i_confidence i1 in
            let threshold :=
              if is_conversational (i_name i0) then c_0_1 else c_0_2 in
            if PrimFloat.ltb threshold (top_confidence - second_confidence)
            then Some i0
            else if PrimFloat.ltb 0.75 (i_confidence i0)
                    && PrimFloat.ltb (i_confidence i1) c_0_6
            then Some i0
            else None
        | [] => None
        end
  end.

Definition manage_multi_intent_scenarios (intents : list Intent)
    : list Intent :=
  let valid_intents :=
    List.filter (λ intent, PrimFloat.ltb c_0_6 (i_confidence intent))
      intents in
  take 3 valid_intents.

End IntentClassifier.

(** ** explainability/explanation_engine.py: the text shown for a plan *)

Module ExplanationEngine.

Definition newline : string := String (Ascii.ascii_of_nat 10) EmptyString.

(** [f"{i}. {description}"] *)
Definition explanation_part (i : nat) (action : Action) : string :=
  let description := default "Perform action" (act_description action) in
  pretty i +:+ ". " +:+ description.

(** [for i, action in enumerate(plan, 1)] *)
Fixpoint explanation_parts (i : nat) (plan : list Action) : list string :=
  match plan with
  | [] => []
  | action :: rest => explanation_part i action :: explanation_parts (S i) rest
  end.

Definition explain_plan (plan : list Action) (original_intent : string)
    : string :=
  match plan with
  | [] =>
      "I couldn't generate a plan for your request. Please try rephrasing."
  | [_] => ""
  | _ =>
      let explanation_parts := explanation_parts 1 plan in
      match explanation_parts with
      | [] => ""
      | _ => String.concat newline explanation_parts
      end
  end.

End ExplanationEngine.

(** * Vocabulary of the statements *)

(** The value that [KnowledgeBase.apply_effects] stores for a declared
    effect value. *)
Definition resolve (v : value) : value :=
  match v with
  | VNone => VBool true
  | _ => v
  end.

(** What a heap operation taking [heap] to [heap'] preserves: every property
    of all the elements (and of the items added). *)
Definition keeps {A} (extra heap heap' : list A) : Prop :=
  ∀ P : A → Prop, Forall P extra → Forall P heap → Forall P heap'.

(** The child that [_siftup] moves up: the right one when it exists and the
    left one is not smaller. *)
Definition pick_child {A} (lt : A → A → bool) (heap : list A)
    (endpos childpos : nat) : option nat :=
  if bool_decide (childpos + 1 < endpos) then
    c ← heap !! childpos;
    r ← heap !! (childpos + 1);
    Some (if negb (lt c r) then childpos + 1 else childpos)
  else Some childpos.

(** The state a plan leads to when every action is applicable in turn. *)
Fixpoint replay (plan : list Action) (s : State) : option State :=
  match plan with
  | [] => Some s
  | a :: rest =>
      if StateManager.check_preconditions a s
      then replay rest (StateManager.apply_action_effects a s)
      else None
  end.

(** A search node that was built from the root by applicable actions. *)
Inductive sound (init : State) : Node → Prop :=
  | sound_root action g h f :
      sound init (mkNode (copy init) None action g h f)
  | sound_child parent a g h f :
      sound init parent →
      StateManager.check_preconditions a (n_state parent) = true →
      sound init
        (mkNode (StateManager.apply_action_effects a (n_state parent))
           (Some parent) (Some a) g h f).

(** What every outcome of the search loop satisfies. *)
Definition search_post (init goal_state : State) (max_iterations : Z)
    (o : outcome) : Prop :=
  (0 ≤ iterations o ≤ Z.max 0 max_iterations)%Z
  ∧ replay (returned o) (copy init) ≠ None
  ∧ match taken o with
    | GoalAlreadySatisfied => False
    | GoalReached =>
        ∃ n, sound init n ∧ returned o = AStarPlanner.reconstruct_path n
             ∧ AStarPlanner._is_goal_reached (n_state n) goal_state = true
    | NoPlanFound =>
        returned o = [] ∧ (queued o = 0 ∨ (max_iterations ≤ iterations o)%Z)
    end.

(** [c] is a well-formed state object of [h] that, with its dict and its
    set, is absent from the older store [h0]; and [h] has every object of
    [h0] unchanged. *)
Definition private (h0 h : Heap.heap) (c : Heap.loc) : Prop :=
  ∃ f g d s,
    h !! c = Some (Heap.OState f g) ∧ h !! f = Some (Heap.ODict d)
    ∧ h !! g = Some (Heap.OSet s)
    ∧ h0 !! c = None ∧ h0 !! f = None ∧ h0 !! g = None
    ∧ h0 ⊆ h.

(** ** Scenarios of the planner *)

(** Scenario B: the location is known and valid, the weather is wanted. *)
Definition scenario_B_state : State :=
  mkState (list_to_map [("location_valid", T); ("location", VStr "Pune")]) ∅.

Definition weather_goal : State := mkState ∅ {["weather_known"]}.

(** Scenario C: the weather is already known. *)
Definition scenario_C_state : State :=
  mkState {["weather_known" := T]} ∅.

(** Scenario A: nothing is known, and only [CheckWeather] is in the catalog. *)
Definition scenario_A_state : State := mkState ∅ ∅.

Definition scenario_A_catalog : list Action := [KnowledgeBase.CheckWeather].

(** A store with one state object, at address 3, whose dict is at 1 and
    whose set is at 2. *)
Definition demo_state : State := mkState {["location_valid" := T]} {["weather_known"]}.

Definition demo_heap : Heap.heap :=
  {[ 1%positive := Heap.ODict (facts demo_state);
     2%positive := Heap.OSet (goals demo_state);
     3%positive := Heap.OState 1 2 ]}.

(** ** Vocabulary of the further properties *)

(** The number a boolean stands for, so that values that [==] identifies
    become the same value. *)
Definition norm (v : value) : value :=
  match v with
  | VBool b => VInt (Z.b2z b)
  | _ => v
  end.

(** Two lookups of the same key agree up to [==]. *)
Definition same_entry (o1 o2 : option value) : Prop :=
  match o1, o2 with
  | Some v, Some w => py_eq v w = true
  | None, None => True
  | _, _ => False
  end.

(** Two items of sorted [items()] tuples that compare equal. *)
Definition item_eq (x y : string * value) : Prop :=
  x.1 = y.1 ∧ py_eq x.2 y.2 = true.




(** The state after the actions of a plan, applied in order. *)
Definition run_effects (plan : list Action) (s : State) : State :=
  foldl (λ st b, StateManager.apply_action_effects b st) s plan.

(** The cost that the search adds up along a plan. *)
Definition plan_cost (plan : list Action) : float :=
  foldl (λ c a, (c + KnowledgeBase.estimate_action_cost a None)%float)
    0%float plan.

(** A catalog with a direct but dear way to the goal [done] and a cheap way
    in two steps. *)
Definition detour_catalog : list Action :=
  [ entry "Direct" [] [] [("done", T)] 2.5 0.0 [] "direct" "One dear step";
    entry "Prepare" [] [] [("ready", T)] 0.25 0.0 [] "prepare"
      "First cheap step";
    entry "Finish" [] [("ready", T)] [("done", T)] 0.25 0.0 [] "finish"
      "Second cheap step" ].

Definition done_goal : State := mkState ∅ {["done"]}.

(** The value found for a parameter: under its own name, or else under its
    lower-cased name. *)
Definition found_for (lower : string → string)
    (intent_parameters : gmap string value) (param : string) : option value :=
  match intent_parameters !! param with
  | Some v => Some v
  | None => intent_parameters !! lower param
  end.

(** * Properties *)

(** ** Values and states *)

Lemma py_eq_refl v : py_eq v v = true.
Proof.
  destruct v as [|b|n|s]; unfold py_eq; simpl;
    auto using Z.eqb_refl, String.eqb_refl.
Qed.

Lemma is_True_spec v : is_True v = true ↔ v = VBool true.
Proof.
  split.
  - destruct v as [|[]| |]; simpl; congruence.
  - intros ->. reflexivity.
Qed.

Lemma dict_eq_refl d : dict_eq d d = true.
Proof.
  unfold dict_eq. rewrite Nat.eqb_refl. simpl.
  apply forallb_forall. intros [k v] Hin.
  apply list_elem_of_In, elem_of_map_to_list in Hin. simpl.
  rewrite Hin. apply py_eq_refl.
Qed.

Lemma State_eq_refl s : State_eq s s = true.
Proof.
  unfold State_eq. rewrite dict_eq_refl. simpl.
  apply bool_decide_eq_true. reflexivity.
Qed.

Lemma copy_id s : copy s = s.
Proof.
  destruct s as [d g]. unfold copy, State_init, deepcopy. simpl.
  case_bool_decide; simpl; congruence.
Qed.

(** C4. [is_goal_satisfied(g)] holds exactly when the facts map has the key
    [g] with the boolean [True] as its value; a fact [g] that holds any
    other value, the string ["true"] included, does not satisfy the goal. *)
Theorem is_goal_satisfied_iff_fact_is_True :
  ∀ (s : State) (g : string),
    (is_goal_satisfied s g = true ↔ facts s !! g = Some (VBool true))
    ∧ is_goal_satisfied (set_fact s g (VStr "true")) g = false
    ∧ (∀ v, facts s !! g = Some v → v ≠ VBool true →
            is_goal_satisfied s g = false).
Proof.
  intros s g.
  assert (Hiff : ∀ t, is_goal_satisfied t g = true
                      ↔ facts t !! g = Some (VBool true)).
  { intros t. unfold is_goal_satisfied, has_fact, get_fact.
    destruct (facts t !! g) as [v|] eqn:E; simpl.
    - rewrite is_True_spec. split; congruence.
    - split; discriminate. }
  split; [apply Hiff|]. split.
  - apply not_true_is_false. rewrite Hiff. simpl.
    rewrite lookup_insert_eq. discriminate.
  - intros v Hv Hne. apply not_true_is_false. rewrite Hiff, Hv. congruence.
Qed.

(** ** Preconditions *)

Lemma SM_check_items_spec items s :
  StateManager.check_items items s = true
  ↔ ∀ k v, (k, v) ∈ items → ∃ w, facts s !! k = Some w ∧ py_eq w v = true.
Proof.
  induction items as [|[k0 v0] items IH]; simpl.
  - split; [|done]. intros _ k v Hin. inversion Hin.
  - unfold has_fact, get_fact, py_ne.
    destruct (facts s !! k0) as [w0|] eqn:E; simpl.
    + destruct (py_eq w0 v0) eqn:Eq; simpl.
      * rewrite IH. split.
        -- intros H k v Hin. apply elem_of_cons in Hin as [[= -> ->]|Hin].
           ++ eauto.
           ++ auto.
        -- intros H k v Hin. apply H. by right.
      * split; [discriminate|]. intros H.
        destruct (H k0 v0) as (w & Hw & Hpy); [by left|].
        congruence.
    + split; [discriminate|]. intros H.
      destruct (H k0 v0) as (w & Hw & _); [by left|]. congruence.
Qed.

Lemma KB_check_items_eq items s :
  KnowledgeBase.check_items items (facts s) = StateManager.check_items items s.
Proof.
  induction items as [|[k0 v0] items IH]; simpl; [done|].
  unfold has_fact, get_fact.
  destruct (facts s !! k0); simpl; [|done]. by rewrite IH.
Qed.

(** C5, amended. [check_preconditions(action, state)] holds exactly when
    every fact named in the action's preconditions is present in the state
    with a value that Python's [==] identifies with the required one; one
    missing fact or one unequal value makes the check false.  The check of
    the knowledge base on the bare facts dict decides the same. *)
Theorem check_preconditions_iff_all_py_equal :
  ∀ (action : Action) (state : State),
    (StateManager.check_preconditions action state = true
     ↔ ∀ k v, default ∅ (act_preconditions action) !! k = Some v →
              ∃ w, facts state !! k = Some w ∧ py_eq w v = true)
    ∧ (∀ k v, default ∅ (act_preconditions action) !! k = Some v →
              facts state !! k = None →
              StateManager.check_preconditions action state = false)
    ∧ (∀ k v w, default ∅ (act_preconditions action) !! k = Some v →
                facts state !! k = Some w → py_eq w v = false →
                StateManager.check_preconditions action state = false)
    ∧ KnowledgeBase.check_preconditions action (facts state)
      = StateManager.check_preconditions action state.
Proof.
  intros action state.
  assert (Hiff : StateManager.check_preconditions action state = true
     ↔ ∀ k v, default ∅ (act_preconditions action) !! k = Some v →
              ∃ w, facts state !! k = Some w ∧ py_eq w v = true).
  { unfold StateManager.check_preconditions. rewrite SM_check_items_spec.
    split; intros H k v Hk; apply H; by apply elem_of_map_to_list. }
  split; [exact Hiff|]. split; [|split].
  - intros k v Hk Hnone. apply not_true_is_false. rewrite Hiff. intros H.
    destruct (H k v Hk) as (w & Hw & _). congruence.
  - intros k v w Hk Hw Hne. apply not_true_is_false. rewrite Hiff. intros H.
    destruct (H k v Hk) as (w' & Hw' & Hpy). congruence.
  - apply KB_check_items_eq.
Qed.

(** Counterexample to C5 as first stated: a state whose fact [location_valid] is the
    integer 1 passes the precondition [location_valid: True] of
    [CheckWeather], since [1 != True] is false in Python, although the
    stored value is not the required one. *)
Lemma check_preconditions_not_exact_equality :
  ¬ (∀ (action : Action) (state : State),
       StateManager.check_preconditions action state = true
       ↔ ∀ k v, default ∅ (act_preconditions action) !! k = Some v →
                facts state !! k = Some v).
Proof.
  intros H.
  destruct (H KnowledgeBase.CheckWeather
              (mkState {["location_valid" := VInt 1]} ∅)) as [Hfwd _].
  specialize (Hfwd eq_refl "location_valid" (VBool true) eq_refl).
  vm_compute in Hfwd. discriminate.
Qed.

(** ** Effects *)

Lemma SM_set_items_goals items s :
  goals (StateManager.set_items items s) = goals s.
Proof.
  revert s. induction items as [|[k v] items IH]; intros s; simpl; [done|].
  by rewrite IH.
Qed.

Lemma SM_set_items_lookup items s k :
  NoDup items.*1 →
  facts (StateManager.set_items items s) !! k
  = match (list_to_map items : gmap string value) !! k with
    | Some v => Some v
    | None => facts s !! k
    end.
Proof.
  revert s. induction items as [|[k0 v0] items IH]; intros s Hnd; simpl.
  - by rewrite lookup_empty.
  - apply NoDup_cons in Hnd as [Hnotin Hnd]. rewrite IH by done. simpl.
    destruct (decide (k0 = k)) as [->|Hne].
    + rewrite lookup_insert_eq.
      rewrite (not_elem_of_list_to_map_1 _ k) by done.
      by rewrite lookup_insert_eq.
    + rewrite !lookup_insert_ne by done. done.
Qed.

Lemma apply_action_effects_lookup action state k :
  facts (StateManager.apply_action_effects action state) !! k
  = match default ∅ (act_effects action) !! k with
    | Some v => Some v
    | None => facts state !! k
    end.
Proof.
  unfold StateManager.apply_action_effects.
  rewrite SM_set_items_lookup by apply NoDup_fst_map_to_list.
  by rewrite list_to_map_to_list, copy_id.
Qed.

Lemma apply_action_effects_goals action state :
  goals (StateManager.apply_action_effects action state) = goals state.
Proof.
  unfold StateManager.apply_action_effects.
  by rewrite SM_set_items_goals, copy_id.
Qed.

Lemma KB_apply_items_lookup items d k :
  NoDup items.*1 →
  KnowledgeBase.apply_items items d !! k
  = match (list_to_map items : gmap string value) !! k with
    | Some v => Some (resolve v)
    | None => d !! k
    end.
Proof.
  revert d. induction items as [|[k0 v0] items IH]; intros d Hnd; simpl.
  - by rewrite lookup_empty.
  - apply NoDup_cons in Hnd as [Hnotin Hnd].
    assert (KnowledgeBase.apply_items items (<[k0 := resolve v0]> d) !! k
            = match (<[k0 := v0]> (list_to_map items) : gmap string value) !! k with
              | Some v => Some (resolve v)
              | None => d !! k
              end) as Hgoal.
    { rewrite IH by done.
      destruct (decide (k0 = k)) as [->|Hne].
      - rewrite (not_elem_of_list_to_map_1 _ k) by done.
        by rewrite !lookup_insert_eq.
      - by rewrite !lookup_insert_ne by done. }
    destruct v0; exact Hgoal.
Qed.

Lemma KB_apply_effects_lookup action d k :
  KnowledgeBase.apply_effects action d !! k
  = match default ∅ (act_effects action) !! k with
    | Some v => Some (resolve v)
    | None => d !! k
    end.
Proof.
  unfold KnowledgeBase.apply_effects.
  rewrite KB_apply_items_lookup by apply NoDup_fst_map_to_list.
  by rewrite list_to_map_to_list.
Qed.

(** C3 does not hold of the code.  The effect application that the planner
    uses, [StateManager.apply_action_effects], stores every effect with its
    declared value, the placeholder [None] included: after [CheckWeather]
    the fact [weather_location] is [None], not [True], in every state.
    [KnowledgeBase.apply_effects], which the planner does not call, is the
    one that resolves the placeholder to [True]. *)
Theorem apply_action_effects_keeps_placeholder :
  ∀ (state : State),
    facts (StateManager.apply_action_effects KnowledgeBase.CheckWeather state)
      !! "weather_location" = Some VNone
    ∧ is_goal_satisfied
        (StateManager.apply_action_effects KnowledgeBase.CheckWeather state)
        "weather_location" = false
    ∧ KnowledgeBase.apply_effects KnowledgeBase.CheckWeather (facts state)
      !! "weather_location" = Some (VBool true)
    ∧ (∀ (action : Action) k v,
         default ∅ (act_effects action) !! k = Some v →
         facts (StateManager.apply_action_effects action state) !! k = Some v
         ∧ KnowledgeBase.apply_effects action (facts state) !! k
           = Some (resolve v)).
Proof.
  intros state.
  assert (H1 : facts (StateManager.apply_action_effects
                        KnowledgeBase.CheckWeather state)
               !! "weather_location" = Some VNone).
  { rewrite apply_action_effects_lookup. reflexivity. }
  split; [exact H1|]. split; [|split].
  - unfold is_goal_satisfied, has_fact, get_fact. rewrite H1. reflexivity.
  - rewrite KB_apply_effects_lookup. reflexivity.
  - intros action k v Hk. split.
    + rewrite apply_action_effects_lookup. by rewrite Hk.
    + rewrite KB_apply_effects_lookup. by rewrite Hk.
Qed.

(** ** The heap operations return, keep the length in step, and move
       elements around without inventing any *)

Section HeapqFacts.
Context {A : Type} (lt : A → A → bool).

Lemma list_set_Some (heap : list A) i x :
  i < length heap → heapq.list_set heap i x = Some (<[i := x]> heap).
Proof. intros H. unfold heapq.list_set. by rewrite bool_decide_eq_true_2. Qed.

Lemma Forall_set (P : A → Prop) (heap : list A) i x :
  Forall P heap → P x → Forall P (<[i := x]> heap).
Proof. intros. by apply Forall_insert. Qed.

Lemma siftdown_loop_S fuel (heap : list A) newitem startpos pos :
  heapq._siftdown_loop lt (S fuel) heap newitem startpos pos
  = if bool_decide (startpos < pos) then
      parent ← heap !! ((pos - 1) / 2);
      if lt newitem parent then
        heap' ← heapq.list_set heap pos parent;
        heapq._siftdown_loop lt fuel heap' newitem startpos ((pos - 1) / 2)
      else heapq.list_set heap pos newitem
    else heapq.list_set heap pos newitem.
Proof. reflexivity. Qed.

Lemma siftdown_loop_ok fuel : ∀ (heap : list A) newitem startpos pos,
  pos < length heap → pos ≤ fuel →
  ∃ heap', heapq._siftdown_loop lt fuel heap newitem startpos pos = Some heap'
           ∧ length heap' = length heap
           ∧ keeps [newitem] heap heap'.
Proof.
  induction fuel as [|fuel IH]; intros heap newitem startpos pos Hpos Hfuel.
  - assert (pos = 0) as -> by lia. simpl.
    rewrite list_set_Some by done. eexists; split; [done|].
    split; [by rewrite length_insert|].
    intros P Hx Hh. apply Forall_set; [done|]. by inversion Hx.
  - rewrite siftdown_loop_S. case_bool_decide as Hlt.
    + assert (Hpar : (pos - 1) / 2 < pos).
      { apply Nat.Div0.div_lt_upper_bound. lia. }
      remember ((pos - 1) / 2) as parentpos eqn:Epar.
      destruct (lookup_lt_is_Some_2 heap parentpos) as [parent Hp];
        [lia|].
      rewrite Hp. simpl. destruct (lt newitem parent).
      * rewrite list_set_Some by done. simpl.
        destruct (IH (<[pos := parent]> heap) newitem startpos parentpos)
          as (heap' & -> & Hlen & Hkeep).
        { rewrite length_insert. lia. }
        { lia. }
        eexists; split; [done|]. split.
        { by rewrite Hlen, length_insert. }
        intros P Hx Hh. apply Hkeep; [done|].
        apply Forall_set; [done|].
        eapply Forall_lookup_1; eauto.
      * rewrite list_set_Some by done. eexists; split; [done|].
        split; [by rewrite length_insert|].
        intros P Hx Hh. apply Forall_set; [done|]. by inversion Hx.
    + rewrite list_set_Some by done. eexists; split; [done|].
      split; [by rewrite length_insert|].
      intros P Hx Hh. apply Forall_set; [done|]. by inversion Hx.
Qed.

Lemma siftdown_ok (heap : list A) startpos pos :
  pos < length heap →
  ∃ heap', heapq._siftdown lt heap startpos pos = Some heap'
           ∧ length heap' = length heap
           ∧ keeps [] heap heap'.
Proof.
  intros Hpos. unfold heapq._siftdown.
  destruct (lookup_lt_is_Some_2 heap pos Hpos) as [newitem Hn].
  rewrite Hn. simpl.
  destruct (siftdown_loop_ok pos heap newitem startpos pos)
    as (heap' & -> & Hlen & Hkeep); [done..|].
  eexists; split; [done|]. split; [done|].
  intros P _ Hh. apply Hkeep; [|done].
  constructor; [|done]. eapply Forall_lookup_1; eauto.
Qed.

Lemma siftup_loop_S fuel (heap : list A) endpos pos childpos :
  heapq._siftup_loop lt (S fuel) heap endpos pos childpos
  = if bool_decide (childpos < endpos) then
      childpos' ← pick_child lt heap endpos childpos;
      x ← heap !! childpos';
      heap' ← heapq.list_set heap pos x;
      heapq._siftup_loop lt fuel heap' endpos childpos' (2 * childpos' + 1)
    else Some (heap, pos).
Proof. reflexivity. Qed.

Lemma pick_child_ok (heap : list A) endpos childpos :
  endpos = length heap → childpos < endpos →
  ∃ c', pick_child lt heap endpos childpos = Some c'
        ∧ childpos ≤ c' ∧ c' < endpos.
Proof.
  intros Hend Hlt. unfold pick_child. case_bool_decide as Hr.
  - destruct (lookup_lt_is_Some_2 heap childpos) as [c ->]; [lia|].
    destruct (lookup_lt_is_Some_2 heap (childpos + 1)) as [r ->]; [lia|].
    simpl. destruct (lt c r); simpl; eexists; split; try done; lia.
  - eexists; split; [done|]. lia.
Qed.

Lemma siftup_loop_ok fuel : ∀ (heap : list A) endpos pos childpos,
  endpos = length heap → pos < endpos → pos < childpos →
  endpos - pos ≤ fuel →
  ∃ heap' pos',
    heapq._siftup_loop lt fuel heap endpos pos childpos = Some (heap', pos')
    ∧ length heap' = length heap ∧ pos' < endpos
    ∧ keeps [] heap heap'.
Proof.
  induction fuel as [|fuel IH];
    intros heap endpos pos childpos Hend Hpos Hchild Hfuel.
  - lia.
  - rewrite siftup_loop_S. case_bool_decide as Hlt.
    + destruct (pick_child_ok heap endpos childpos) as (c' & -> & Hc1 & Hc2);
        [done..|].
      destruct (lookup_lt_is_Some_2 heap c') as [x Hx]; [lia|].
      cbn [mbind option_bind]. rewrite Hx.
      cbn [mbind option_bind]. rewrite list_set_Some by lia.
      cbn [mbind option_bind].
      destruct (IH (<[pos := x]> heap) endpos c' (2 * c' + 1))
        as (heap' & pos' & -> & Hlen & Hp' & Hkeep).
      { by rewrite length_insert. }
      { done. }
      { lia. }
      { lia. }
      eexists _, _; split; [done|]. split.
      { by rewrite Hlen, length_insert. }
      split; [done|].
      intros P Hnil Hh. apply Hkeep; [done|].
      apply Forall_set; [done|]. eapply Forall_lookup_1; eauto.
    + eexists _, _; split; [done|]. repeat split; try done.
      intros P _ Hh. done.
Qed.

Lemma siftup_ok (heap : list A) pos :
  pos < length heap →
  ∃ heap', heapq._siftup lt heap pos = Some heap'
           ∧ length heap' = length heap
           ∧ keeps [] heap heap'.
Proof.
  intros Hpos. unfold heapq._siftup.
  destruct (lookup_lt_is_Some_2 heap pos Hpos) as [newitem Hn].
  rewrite Hn. cbn [mbind option_bind].
  destruct (siftup_loop_ok (length heap) heap (length heap) pos (2 * pos + 1))
    as (heap1 & pos1 & -> & Hlen1 & Hp1 & Hkeep1); [done|done|lia|lia|].
  cbn [mbind option_bind]. rewrite list_set_Some by lia.
  cbn [mbind option_bind].
  destruct (siftdown_ok (<[pos1 := newitem]> heap1) pos pos1)
    as (heap2 & -> & Hlen2 & Hkeep2).
  { rewrite length_insert. lia. }
  eexists; split; [done|]. split.
  { by rewrite Hlen2, length_insert. }
  intros P Hnil Hh. apply Hkeep2; [done|].
  apply Forall_set; [by apply Hkeep1|]. eapply Forall_lookup_1; eauto.
Qed.

Lemma heappush_ok (heap : list A) item :
  ∃ heap', heapq.heappush lt heap item = Some heap'
           ∧ length heap' = S (length heap)
           ∧ keeps [item] heap heap'.
Proof.
  unfold heapq.heappush.
  destruct (siftdown_ok (heap ++ [item])%list 0
              (length (heap ++ [item])%list - 1))
    as (heap' & -> & Hlen & Hkeep).
  { rewrite length_app. simpl. lia. }
  eexists; split; [done|]. split.
  { rewrite Hlen, length_app. simpl. lia. }
  intros P Hx Hh. apply Hkeep; [done|]. by apply Forall_app.
Qed.

Lemma list_pop_ok (heap : list A) :
  heap ≠ [] →
  ∃ x rest, heapq.list_pop heap = Some (x, rest)
            ∧ heap = (rest ++ [x])%list.
Proof.
  intros Hne. unfold heapq.list_pop.
  destruct (decide (heap = [])) as [|_]; [done|].
  induction heap as [|y heap' _] using rev_ind; [done|].
  rewrite last_snoc. eexists _, _; split; [done|].
  rewrite length_app. simpl.
  replace (length heap' + 1 - 1) with (length heap') by lia.
  by rewrite take_app_length.
Qed.

Lemma heappop_ok (heap : list A) :
  heap ≠ [] →
  ∃ x heap', heapq.heappop lt heap = Some (x, heap')
             ∧ S (length heap') = length heap
             ∧ ∀ P : A → Prop, Forall P heap → P x ∧ Forall P heap'.
Proof.
  intros Hne. unfold heapq.heappop.
  destruct (list_pop_ok heap Hne) as (lastelt & rest & -> & ->). simpl.
  destruct rest as [|returnitem rest].
  - eexists _, _; split; [done|]. split; [done|].
    intros P HP. split; [|done]. by inversion HP.
  - rewrite list_set_Some by (simpl; lia). simpl.
    destruct (siftup_ok (lastelt :: rest) 0) as (heap' & -> & Hlen & Hkeep).
    { simpl. lia. }
    eexists _, _; split; [done|]. split.
    { rewrite Hlen. simpl. rewrite length_app. simpl. lia. }
    intros P HP. inversion HP as [|? ? Hr HP']; subst.
    apply Forall_app in HP' as [HP1 HP2].
    inversion HP2; subst. split; [done|].
    apply Hkeep; [done|]. by constructor.
Qed.

Lemma heapify_loop_ok k : ∀ (x : list A),
  k ≤ length x →
  ∃ x', heapq.heapify_loop lt k x = Some x'
        ∧ length x' = length x ∧ keeps [] x x'.
Proof.
  induction k as [|k IH]; intros x Hk; simpl.
  - eexists; split; [done|]. split; [done|]. by intros P _ H.
  - destruct (siftup_ok x k) as (x1 & -> & Hlen1 & Hkeep1); [lia|]. simpl.
    destruct (IH x1) as (x2 & -> & Hlen2 & Hkeep2); [lia|].
    eexists; split; [done|]. split; [congruence|].
    intros P Hnil H. apply Hkeep2; [done|]. by apply Hkeep1.
Qed.

Lemma heapify_ok (x : list A) :
  ∃ x', heapq.heapify lt x = Some x'
        ∧ length x' = length x ∧ keeps [] x x'.
Proof.
  unfold heapq.heapify. apply heapify_loop_ok.
  apply Nat.Div0.div_le_upper_bound. lia.
Qed.

End HeapqFacts.

(** ** The search *)

Section PlannerFacts.
Variable actions : list Action.

Local Abbreviation check := StateManager.check_preconditions.
Local Abbreviation apply := StateManager.apply_action_effects.

Lemma validate_loop_replay plan s :
  AStarPlanner.validate_loop plan s = true ↔ is_Some (replay plan s).
Proof.
  revert s. induction plan as [|a plan IH]; intros s; simpl.
  - split; [by eexists|done].
  - destruct (check a s); simpl; [apply IH|].
    split; [discriminate|]. by intros [? ?].
Qed.

Lemma replay_app p q s : replay (p ++ q) s = replay p s ≫= replay q.
Proof.
  revert s. induction p as [|a p IH]; intros s; simpl; [done|].
  destruct (check a s); simpl; [apply IH|done].
Qed.

Lemma replay_prefix p s t :
  replay p s = Some t →
  ∀ i a, p !! i = Some a →
    check a (foldl (λ st b, apply b st) s (take i p)) = true.
Proof.
  revert s. induction p as [|b p IH]; intros s Hrun i a Hi; [done|].
  simpl in Hrun. destruct (check b s) eqn:Hb; [|done].
  destruct i as [|i]; simpl in *.
  - by inversion Hi; subst.
  - by eapply IH.
Qed.

Lemma falsy_action_no_effect a s :
  action_truthy a = false → apply a s = s.
Proof.
  destruct a as [n p pre eff c t d e ds]. unfold action_truthy. simpl.
  intros H. destruct n, p, pre, eff; try discriminate.
  unfold StateManager.apply_action_effects. simpl.
  rewrite map_to_list_empty. simpl. apply copy_id.
Qed.

Lemma sound_path_app init n :
  sound init n →
  ∀ acc, AStarPlanner.reconstruct_loop n acc
         = AStarPlanner.reconstruct_loop n [] ++ acc.
Proof.
  induction 1 as [|parent a g h f Hs IH Hc]; intros acc; simpl; [done|].
  destruct (action_truthy a); [|apply IH].
  rewrite (IH (a :: acc)), (IH [a]). by rewrite <- app_assoc.
Qed.

Lemma sound_replay init n :
  sound init n →
  replay (AStarPlanner.reconstruct_path n) (copy init) = Some (n_state n).
Proof.
  unfold AStarPlanner.reconstruct_path.
  induction 1 as [|parent a g h f Hs IH Hc]; simpl; [done|].
  destruct (action_truthy a) eqn:Ha.
  - rewrite (sound_path_app init parent Hs [a]), replay_app, IH. simpl.
    by rewrite Hc.
  - rewrite IH. by rewrite falsy_action_no_effect.
Qed.

Lemma successors_applicable s acts :
  Forall (λ sa, check sa.2 s = true ∧ sa.1 = apply sa.2 s)
    (StateManager.generate_successor_states s acts).
Proof.
  induction acts as [|a acts IH]; simpl; [done|].
  destruct (check a s) eqn:Hc; [|done]. by constructor.
Qed.

Lemma better_path_ok new_node new_state :
  ∀ remaining i open_set,
    i + length remaining = length open_set →
    ∃ open_set',
      AStarPlanner.better_path i remaining open_set new_node new_state
      = Some open_set'
      ∧ length open_set' = length open_set
      ∧ keeps [new_node] open_set open_set'.
Proof.
  induction remaining as [|existing rest IH]; intros i open_set Hlen; simpl.
  - eexists; split; [done|]. split; [done|]. by intros P _ H.
  - destruct (State_eq (n_state existing) new_state
              && PrimFloat.ltb (f_cost new_node) (f_cost existing)).
    + simpl in Hlen. rewrite list_set_Some by lia.
      cbn [mbind option_bind].
      destruct (heapify_ok Node_lt (<[i := new_node]> open_set))
        as (x' & -> & Hl & Hkeep).
      eexists; split; [done|]. split.
      { by rewrite Hl, length_insert. }
      intros P Hx H. apply Hkeep; [done|].
      apply Forall_set; [done|]. by inversion Hx.
    + apply IH. simpl in Hlen. lia.
Qed.

Lemma expand_ok init goal_state closed_set current_node :
  sound init current_node →
  ∀ successors open_set visited_states,
    Forall (λ sa, check sa.2 (n_state current_node) = true
                  ∧ sa.1 = apply sa.2 (n_state current_node)) successors →
    Forall (sound init) open_set →
    ∃ open_set' visited_states',
      AStarPlanner.expand successors current_node goal_state closed_set
        open_set visited_states = Some (open_set', visited_states')
      ∧ Forall (sound init) open_set'.
Proof.
  intros Hcur.
  induction successors as [|[new_state action] rest IH];
    intros open_set visited_states Hsucc Hopen; simpl.
  - by eexists _, _.
  - apply Forall_cons in Hsucc as [[Hc Hst] Hsucc]. simpl in Hc, Hst.
    destruct (state_in new_state closed_set); [by apply IH|].
    match goal with
    | |- context [Node_init ?a ?b ?c ?d ?e] =>
        assert (Hnew : sound init (Node_init a b c d e))
    end.
    { unfold Node_init. rewrite Hst. by constructor. }
    destruct (state_in new_state visited_states); simpl.
    + match goal with
      | |- context [AStarPlanner.better_path 0 open_set open_set ?n ?s] =>
          destruct (better_path_ok n s open_set 0 open_set)
            as (open' & -> & _ & Hkeep); [done|]
      end.
      cbn [mbind option_bind]. apply IH; [done|].
      apply Hkeep; [by constructor|done].
    + match goal with
      | |- context [heapq.heappush Node_lt open_set ?n] =>
          destruct (heappush_ok Node_lt open_set n)
            as (open' & -> & _ & Hkeep)
      end.
      cbn [mbind option_bind]. apply IH; [done|].
      apply Hkeep; [by constructor|done].
Qed.

Lemma search_ok init goal_state max_iterations fuel :
  ∀ iteration open_set closed_set visited_states,
    (0 ≤ iteration)%Z →
    (iteration ≤ Z.max 0 max_iterations)%Z →
    Z.to_nat (max_iterations - iteration) ≤ fuel →
    Forall (sound init) open_set →
    ∃ o, AStarPlanner.search actions fuel max_iterations goal_state
           iteration open_set closed_set visited_states = Some o
         ∧ search_post init goal_state max_iterations o.
Proof.
  induction fuel as [|fuel IH];
    intros iteration open_set closed_set visited_states Hge Hle Hfuel Hopen.
  - simpl. case_bool_decide as Hnil; simpl.
    + eexists; split; [done|]. repeat split; simpl; try done.
      left. by subst.
    + destruct (iteration <? max_iterations)%Z eqn:Hlt; [lia|].
      eexists; split; [done|]. repeat split; simpl; try done.
      right. lia.
  - simpl. case_bool_decide as Hnil; simpl.
    { eexists; split; [done|]. repeat split; simpl; try done.
      left. by subst. }
    destruct (iteration <? max_iterations)%Z eqn:Hlt.
    2:{ eexists; split; [done|]. repeat split; simpl; try done.
        right. lia. }
    apply Z.ltb_lt in Hlt.
    destruct (heappop_ok Node_lt open_set Hnil)
      as (current & open1 & -> & Hlen & Hpop).
    destruct (Hpop _ Hopen) as [Hcur Hopen1].
    cbn [mbind option_bind].
    destruct (AStarPlanner._is_goal_reached (n_state current) goal_state)
      eqn:Hgoal.
    + eexists; split; [done|]. split; [simpl; lia|]. split.
      * simpl. by rewrite (sound_replay init current Hcur).
      * simpl. eauto.
    + destruct (expand_ok init goal_state
                  (state_add (n_state current) closed_set) current Hcur
                  (AStarPlanner.generate_successors actions (n_state current))
                  open1 visited_states)
        as (open2 & visited2 & -> & Hopen2).
      { apply successors_applicable. }
      { done. }
      cbn [mbind option_bind]. apply IH; [lia|lia|lia|done].
Qed.

Lemma plan_outcome_ok current_state goal_state max_iterations :
  ∃ o, AStarPlanner.plan_outcome actions current_state goal_state
         max_iterations = Some o
       ∧ (taken o = GoalAlreadySatisfied
          ↔ AStarPlanner._is_goal_reached current_state goal_state = true)
       ∧ (taken o = GoalAlreadySatisfied →
          returned o = [] ∧ iterations o = 0%Z)
       ∧ (taken o ≠ GoalAlreadySatisfied →
          search_post current_state goal_state max_iterations o).
Proof.
  unfold AStarPlanner.plan_outcome.
  destruct (AStarPlanner._is_goal_reached current_state goal_state)
    eqn:Hgoal.
  - eexists; split; [done|]. simpl. repeat split; try done.
  - destruct (search_ok current_state goal_state max_iterations
                (Z.to_nat max_iterations) 0
                [Node_init (copy current_state) None None 0
                   (AStarPlanner.calculate_heuristic current_state
                      goal_state)]
                [] [copy current_state])
      as (o & Ho & Hpost); [lia|lia|lia| |].
    { repeat constructor. }
    exists o. split; [exact Ho|].
    destruct Hpost as (Hit & Hrep & Htaken).
    split; [|split].
    + split; [|done]. intros E. by rewrite E in Htaken.
    + intros E. by rewrite E in Htaken.
    + done.
Qed.

End PlannerFacts.

(** C1. Every plan that [plan] returns passes [validate_plan] from the
    initial state: each action's preconditions hold in the state reached by
    applying the effects of the actions before it. *)
Theorem returned_plan_validates :
  ∀ (actions : list Action) (current_state goal_state : State)
    (max_iterations : Z) (p : list Action),
    AStarPlanner.plan actions current_state goal_state max_iterations = Some p →
    AStarPlanner.validate_plan p current_state = true
    ∧ ∀ i a, p !! i = Some a →
        StateManager.check_preconditions a
          (foldl (λ st b, StateManager.apply_action_effects b st)
             (copy current_state) (take i p)) = true.
Proof.
  intros actions cs gs max p Hplan.
  unfold AStarPlanner.plan in Hplan.
  destruct (plan_outcome_ok actions cs gs max) as (o & Ho & _ & Hshort & Hpost).
  rewrite Ho in Hplan. simpl in Hplan. injection Hplan as <-.
  assert (Hrep : is_Some (replay (returned o) (copy cs))).
  { destruct (decide (taken o = GoalAlreadySatisfied)) as [E|E].
    - destruct (Hshort E) as [-> _]. by eexists.
    - destruct (Hpost E) as (_ & Hne & _).
      destruct (replay (returned o) (copy cs)); [by eexists|done]. }
  split.
  - unfold AStarPlanner.validate_plan. by apply validate_loop_replay.
  - destruct Hrep as [t Ht]. by eapply replay_prefix.
Qed.

Lemma returned_plan_validates_witness :
  AStarPlanner.plan KnowledgeBase._initialize_actions scenario_B_state
    weather_goal 1000 = Some [KnowledgeBase.CheckWeather]
  ∧ AStarPlanner.validate_plan [KnowledgeBase.CheckWeather] scenario_B_state
    = true.
Proof.
  assert (H : AStarPlanner.plan KnowledgeBase._initialize_actions
                scenario_B_state weather_goal 1000
              = Some [KnowledgeBase.CheckWeather]).
  { vm_compute. reflexivity. }
  split; [exact H|].
  exact (proj1 (returned_plan_validates _ _ _ _ _ H)).
Defined.

(** C2, amended. The result of [plan] when the initial state already
    satisfies every goal and its result when the search ends without
    reaching a goal are the same empty list.  Which of the two happened can
    only be told by testing the goals on the initial state again: the
    first is the case exactly when [_is_goal_reached] holds there. *)
Theorem no_action_and_no_plan_both_empty :
  ∀ (actions : list Action) (current_state goal_state : State)
    (max_iterations : Z),
    ∃ o, AStarPlanner.plan_outcome actions current_state goal_state
           max_iterations = Some o
       ∧ AStarPlanner.plan actions current_state goal_state max_iterations
         = Some (returned o)
       ∧ (taken o = GoalAlreadySatisfied ∨ taken o = NoPlanFound →
          returned o = [])
       ∧ (taken o = GoalAlreadySatisfied
          ↔ AStarPlanner._is_goal_reached current_state goal_state = true).
Proof.
  intros actions cs gs max.
  destruct (plan_outcome_ok actions cs gs max)
    as (o & Ho & Hiff & Hshort & Hpost).
  exists o. split; [exact Ho|]. split.
  { unfold AStarPlanner.plan. by rewrite Ho. }
  split; [|exact Hiff].
  intros [E|E].
  - by destruct (Hshort E).
  - destruct Hpost as (_ & _ & Ht); [congruence|].
    rewrite E in Ht. by destruct Ht.
Qed.

(** Counterexample to C2 as first stated: with [CheckWeather] as the only action, the
    state that already knows the weather and the empty state, both asked
    for [weather_known], leave [plan] by different [return]s with the same
    result. *)
Lemma no_action_and_no_plan_not_distinguished :
  ¬ (∀ (actions : list Action) (s1 g1 s2 g2 : State) (m1 m2 : Z)
       (o1 o2 : outcome),
       AStarPlanner.plan_outcome actions s1 g1 m1 = Some o1 →
       taken o1 = GoalAlreadySatisfied →
       AStarPlanner.plan_outcome actions s2 g2 m2 = Some o2 →
       taken o2 = NoPlanFound →
       returned o1 ≠ returned o2).
Proof.
  intros H.
  apply (H scenario_A_catalog scenario_C_state weather_goal
           scenario_A_state weather_goal 1000%Z 1000%Z
           (mkOutcome GoalAlreadySatisfied [] 0 0)
           (mkOutcome NoPlanFound [] 1 0)).
  - vm_compute. reflexivity.
  - reflexivity.
  - vm_compute. reflexivity.
  - reflexivity.
  - reflexivity.
Qed.

(** C6. With the built-in catalog, planning from the facts
    [{location_valid: True, location: "Pune"}] for the goal [weather_known]
    returns the plan [[CheckWeather]]. *)
Theorem scenario_B_plan_is_CheckWeather :
  AStarPlanner.plan KnowledgeBase._initialize_actions scenario_B_state
    weather_goal 1000 = Some [KnowledgeBase.CheckWeather]
  ∧ (taken <$> AStarPlanner.plan_outcome KnowledgeBase._initialize_actions
                 scenario_B_state weather_goal 1000) = Some GoalReached.
Proof. split; vm_compute; reflexivity. Qed.

(** C8. [plan] returns for every input, and the body of its search loop runs
    at most [max_iterations] times (not at all when the bound is not
    positive): the count of passes it ends with lies between 0 and the
    bound. *)
Theorem plan_terminates_within_bound :
  ∀ (actions : list Action) (current_state goal_state : State)
    (max_iterations : Z),
    ∃ o, AStarPlanner.plan_outcome actions current_state goal_state
           max_iterations = Some o
       ∧ AStarPlanner.plan actions current_state goal_state max_iterations
         = Some (returned o)
       ∧ (0 ≤ iterations o ≤ Z.max 0 max_iterations)%Z.
Proof.
  intros actions cs gs max.
  destruct (plan_outcome_ok actions cs gs max)
    as (o & Ho & _ & Hshort & Hpost).
  exists o. split; [exact Ho|]. split.
  { unfold AStarPlanner.plan. by rewrite Ho. }
  destruct (decide (taken o = GoalAlreadySatisfied)) as [E|E].
  - destruct (Hshort E) as [_ ->]. lia.
  - by destruct (Hpost E) as (Hit & _).
Qed.

Lemma no_goals_never_reached goal_state state :
  goals goal_state = ∅ →
  AStarPlanner._is_goal_reached state goal_state = false.
Proof.
  intros H. unfold AStarPlanner._is_goal_reached.
  by rewrite bool_decide_eq_true_2.
Qed.

(** C10. With an empty goal set [plan] leaves neither by the short-circuit
    nor by the success [return]: it runs the search until the open set is
    empty or the bound is reached and returns the empty list of the "no plan
    found" [return]. *)
Theorem empty_goal_set_gives_no_plan :
  ∀ (actions : list Action) (current_state goal_state : State)
    (max_iterations : Z),
    goals goal_state = ∅ →
    ∃ o, AStarPlanner.plan_outcome actions current_state goal_state
           max_iterations = Some o
       ∧ taken o = NoPlanFound
       ∧ returned o = []
       ∧ (queued o = 0 ∨ (max_iterations ≤ iterations o)%Z)
       ∧ AStarPlanner.plan actions current_state goal_state max_iterations
         = Some [].
Proof.
  intros actions cs gs max Hempty.
  destruct (plan_outcome_ok actions cs gs max)
    as (o & Ho & Hiff & _ & Hpost).
  assert (Hnot : taken o ≠ GoalAlreadySatisfied).
  { intros E. apply Hiff in E.
    by rewrite no_goals_never_reached in E. }
  destruct (Hpost Hnot) as (_ & _ & Ht).
  destruct (taken o) eqn:E; [done| |].
  - destruct Ht as (n & _ & _ & Hgoal).
    by rewrite no_goals_never_reached in Hgoal.
  - destruct Ht as [Hret Hq].
    exists o. repeat split; try done.
    unfold AStarPlanner.plan. rewrite Ho. simpl. by rewrite Hret.
Qed.

Lemma empty_goal_set_gives_no_plan_witness :
  goals (mkState ∅ ∅) = ∅
  ∧ AStarPlanner.plan KnowledgeBase._initialize_actions scenario_B_state
      (mkState ∅ ∅) 2 = Some [].
Proof.
  split; [reflexivity|].
  destruct (empty_goal_set_gives_no_plan KnowledgeBase._initialize_actions
              scenario_B_state (mkState ∅ ∅) 2 eq_refl)
    as (o & _ & _ & _ & _ & H).
  exact H.
Defined.

(** ** Objects: what a copy shares with its original *)

Section HeapFacts.
Local Abbreviation heap := Heap.heap.
Local Abbreviation loc := Heap.loc.
Local Abbreviation obj := Heap.obj.
Local Abbreviation ODict := Heap.ODict.
Local Abbreviation OSet := Heap.OSet.
Local Abbreviation OState := Heap.OState.
Local Abbreviation alloc := Heap.alloc.
Local Abbreviation view := Heap.view.
Local Abbreviation state_at := Heap.state_at.
Local Abbreviation dict_at := Heap.dict_at.
Local Abbreviation set_at := Heap.set_at.
Local Abbreviation mutate := Heap.mutate.
Local Abbreviation mutate_all := Heap.mutate_all.

Lemma alloc_spec (o : obj) (h : heap) :
  ∃ l, alloc o h = (l, <[l := o]> h) ∧ h !! l = None.
Proof.
  exists (fresh (dom h)). split; [done|].
  apply not_elem_of_dom, is_fresh.
Qed.

Lemma view_Some h self s :
  view h self = Some s ↔
  ∃ f g, h !! self = Some (OState f g)
         ∧ h !! f = Some (ODict (facts s)) ∧ h !! g = Some (OSet (goals s)).
Proof.
  unfold Heap.view, Heap.state_at, Heap.dict_at, Heap.set_at. split.
  - intros H. destruct (h !! self) as [[| |f g]|] eqn:E1; try done.
    simpl in H.
    destruct (h !! f) as [[d| |]|] eqn:E2; try done. simpl in H.
    destruct (h !! g) as [[|gs|]|] eqn:E3; try done. simpl in H.
    injection H as <-. by exists f, g.
  - intros (f & g & -> & Hf & Hg). simpl. rewrite Hf. simpl. rewrite Hg.
    simpl. by destruct s.
Qed.

Lemma view_weaken h h' self s :
  h ⊆ h' → view h self = Some s → view h' self = Some s.
Proof.
  intros Hsub. rewrite !view_Some. intros (f & g & H1 & H2 & H3).
  exists f, g. repeat split; eapply lookup_weaken; eauto.
Qed.

Lemma private_view h0 h c :
  private h0 h c → ∃ s, view h c = Some s.
Proof.
  intros (f & g & d & s & Hc & Hf & Hg & _).
  exists (mkState d s). apply view_Some. by exists f, g.
Qed.

Lemma copy_spec h self s :
  view h self = Some s →
  ∃ c h', Heap.copy self h = Some (c, h') ∧ private h h' c
          ∧ view h' c = Some s.
Proof.
  intros Hv. apply view_Some in Hv as (f & g & Hself & Hf & Hg).
  unfold Heap.copy, Heap.state_at. rewrite Hself. cbn [mbind option_bind].
  unfold Heap.deepcopy, Heap.dict_at. rewrite Hf. cbn [mbind option_bind].
  destruct (alloc_spec (ODict (facts s)) h) as (l1 & -> & F1).
  unfold Heap.State_init, Heap.dict_at. rewrite lookup_insert_eq.
  cbn [mbind option_bind].
  set (h1 := <[l1 := ODict (facts s)]> h).
  assert (∃ f2 h2,
            (if bool_decide (facts s = ∅)
             then Some (alloc (ODict ∅) h1) else Some (l1, h1))
            = Some (f2, h2)
            ∧ h ⊆ h2 ∧ h !! f2 = None
            ∧ h2 !! f2 = Some (ODict (facts s)))
    as (f2 & h2 & -> & Hsub2 & F2 & Hd2).
  { case_bool_decide as He.
    - destruct (alloc_spec (ODict ∅) h1) as (l2 & -> & F2).
      unfold h1 in F2. apply lookup_insert_None in F2 as [F2 Hne].
      eexists _, _; split; [done|]. split; [|split].
      + apply insert_subseteq_r; [done|]. by apply insert_subseteq.
      + done.
      + rewrite lookup_insert_eq. by rewrite He.
    - eexists _, _; split; [done|]. split; [|split].
      + by apply insert_subseteq.
      + done.
      + unfold h1. by rewrite lookup_insert_eq. }
  cbn [mbind option_bind].
  destruct (alloc_spec (OSet ∅) h2) as (l3 & -> & F3).
  set (h3 := <[l3 := OSet ∅]> h2).
  destruct (alloc_spec (OState f2 l3) h3) as (l4 & -> & F4).
  set (h4 := <[l4 := OState f2 l3]> h3).
  cbn [mbind option_bind].
  assert (Hsub4 : h ⊆ h4).
  { unfold h4, h3. etrans; [exact Hsub2|].
    etrans; [by apply insert_subseteq|]. by apply insert_subseteq. }
  unfold Heap.set_at. rewrite (lookup_weaken _ _ _ _ Hg Hsub4).
  cbn [mbind option_bind].
  destruct (alloc_spec (OSet (goals s)) h4) as (l5 & -> & F5).
  set (h5 := <[l5 := OSet (goals s)]> h4).
  unfold h4 in F5. apply lookup_insert_None in F5 as [F5 N54].
  unfold h3 in F4, F5. apply lookup_insert_None in F4 as [F4 N43].
  apply lookup_insert_None in F5 as [F5 N53].
  assert (N42 : l4 ≠ f2) by congruence.
  assert (N52 : l5 ≠ f2) by congruence.
  assert (N32 : l3 ≠ f2) by congruence.
  assert (Hl4 : h5 !! l4 = Some (OState f2 l3)).
  { unfold h5, h4. rewrite lookup_insert_ne by done.
    by rewrite lookup_insert_eq. }
  rewrite Hl4. cbn [mbind option_bind].
  eexists _, _; split; [done|].
  assert (H6c : <[l4 := OState f2 l5]> h5 !! l4 = Some (OState f2 l5))
    by apply lookup_insert_eq.
  assert (H6f : <[l4 := OState f2 l5]> h5 !! f2 = Some (ODict (facts s))).
  { unfold h5, h4, h3. rewrite !lookup_insert_ne by done. exact Hd2. }
  assert (H6g : <[l4 := OState f2 l5]> h5 !! l5 = Some (OSet (goals s))).
  { unfold h5. rewrite lookup_insert_ne by done. apply lookup_insert_eq. }
  assert (Fh4 : h !! l4 = None).
  { eapply lookup_weaken_None; [exact F4|exact Hsub2]. }
  assert (Fh5 : h !! l5 = None).
  { eapply lookup_weaken_None; [exact F5|exact Hsub2]. }
  split.
  - exists f2, l5, (facts s), (goals s). repeat split; try done.
    apply insert_subseteq_r; [done|].
    unfold h5. apply insert_subseteq_r; [done|]. exact Hsub4.
  - apply view_Some. by exists f2, l5.
Qed.

Lemma mutate_private h0 h c m :
  private h0 h c →
  ∃ h', mutate c m h = Some h' ∧ private h0 h' c
        ∧ view h' c = mutate_value m <$> view h c.
Proof.
  intros (f & g & d & s & Hc & Hf & Hg & Fc & Ff & Fg & Hsub).
  assert (Ncf : c ≠ f) by congruence.
  assert (Ncg : c ≠ g) by congruence.
  assert (Nfg : f ≠ g) by congruence.
  assert (Hv : view h c = Some (mkState d s)).
  { apply view_Some. by exists f, g. }
  rewrite Hv. simpl.
  destruct m as [k v|k|k|k]; simpl.
  - unfold Heap.set_fact, Heap.state_at, Heap.dict_at. rewrite Hc. simpl.
    rewrite Hf. simpl. eexists; split; [done|]. split.
    + exists f, g, (<[k := v]> d), s.
      rewrite lookup_insert_eq, !lookup_insert_ne by done.
      repeat split; try done. by apply insert_subseteq_r.
    + apply view_Some. exists f, g. simpl.
      rewrite lookup_insert_eq, !lookup_insert_ne by done. done.
  - unfold Heap.remove_fact, Heap.state_at, Heap.dict_at. rewrite Hc. simpl.
    rewrite Hf. simpl. unfold remove_fact, has_fact. simpl.
    destruct (d !! k) eqn:Ek.
    + eexists; split; [done|]. split.
      * exists f, g, (delete k d), s.
        rewrite lookup_insert_eq, !lookup_insert_ne by done.
        repeat split; try done. by apply insert_subseteq_r.
      * apply view_Some. exists f, g. simpl.
        rewrite lookup_insert_eq, !lookup_insert_ne by done. done.
    + eexists; split; [done|]. split; [|done].
      by exists f, g, d, s.
  - unfold Heap.add_goal, Heap.state_at, Heap.set_at. rewrite Hc. simpl.
    rewrite Hg. simpl. eexists; split; [done|]. split.
    + exists f, g, d, ({[k]} ∪ s).
      rewrite lookup_insert_eq, !lookup_insert_ne by done.
      repeat split; try done. by apply insert_subseteq_r.
    + apply view_Some. exists f, g. simpl.
      rewrite lookup_insert_eq, !lookup_insert_ne by done. done.
  - unfold Heap.remove_goal, Heap.state_at, Heap.set_at. rewrite Hc. simpl.
    rewrite Hg. simpl. eexists; split; [done|]. split.
    + exists f, g, d, (s ∖ {[k]}).
      rewrite lookup_insert_eq, !lookup_insert_ne by done.
      repeat split; try done. by apply insert_subseteq_r.
    + apply view_Some. exists f, g. simpl.
      rewrite lookup_insert_eq, !lookup_insert_ne by done. done.
Qed.

Lemma mutate_all_private h0 c ms :
  ∀ h, private h0 h c →
    ∃ h', mutate_all c ms h = Some h' ∧ private h0 h' c
          ∧ view h' c = (λ s, foldl (λ st m, mutate_value m st) s ms)
                          <$> view h c.
Proof.
  induction ms as [|m ms IH]; intros h Hp; simpl.
  - eexists; split; [done|]. split; [done|].
    by destruct (view h c).
  - destruct (mutate_private h0 h c m Hp) as (h1 & -> & Hp1 & Hv1).
    cbn [mbind option_bind].
    destruct (IH h1 Hp1) as (h2 & -> & Hp2 & Hv2).
    eexists; split; [done|]. split; [done|].
    rewrite Hv2, Hv1. by destruct (view h c).
Qed.

Lemma set_items_mutate_all items c h :
  Heap.set_items items c h
  = mutate_all c (map (λ kv, SetFact kv.1 kv.2) items) h.
Proof.
  revert h. induction items as [|[k v] items IH]; intros h; simpl; [done|].
  destruct (Heap.set_fact c k v h); simpl; [apply IH|done].
Qed.

Lemma SM_set_items_foldl items s :
  StateManager.set_items items s
  = foldl (λ st m, mutate_value m st) s
      (map (λ kv, SetFact kv.1 kv.2) items).
Proof.
  revert s. induction items as [|[k v] items IH]; intros s; simpl; [done|].
  apply IH.
Qed.

Lemma private_fresh h0 h c self s :
  private h0 h c → view h0 self = Some s →
  c ≠ self ∧ h0 !! c = None ∧ h0 ⊆ h ∧ view h self = Some s.
Proof.
  intros (f & g & d & gs & Hc & Hf & Hg & Fc & Ff & Fg & Hsub) Hv.
  split; [|split; [done|split; [done|by eapply view_weaken]]].
  apply view_Some in Hv as (f0 & g0 & Hs & _). congruence.
Qed.

Lemma apply_action_effects_spec action h self s :
  view h self = Some s →
  ∃ r h', Heap.apply_action_effects action self h = Some (r, h')
          ∧ private h h' r
          ∧ view h' r = Some (StateManager.apply_action_effects action s).
Proof.
  intros Hv. unfold Heap.apply_action_effects.
  destruct (copy_spec h self s Hv) as (c & h1 & -> & Hp1 & Hv1).
  cbn [mbind option_bind]. rewrite set_items_mutate_all.
  destruct (mutate_all_private h c
              (map (λ kv, SetFact kv.1 kv.2)
                 (map_to_list (default ∅ (act_effects action)))) h1 Hp1)
    as (h2 & -> & Hp2 & Hv2).
  cbn [mbind option_bind]. eexists _, _; split; [done|]. split; [done|].
  rewrite Hv2, Hv1. simpl. f_equal.
  unfold StateManager.apply_action_effects.
  by rewrite SM_set_items_foldl, copy_id.
Qed.

End HeapFacts.

(** C7. The copy of a state is another object, equal to the state under
    [__eq__] (either way round) and with the same hash; and whatever
    sequence of [set_fact], [remove_fact], [add_goal] and [remove_goal]
    calls is then made on the copy, the original keeps its facts and its
    goals, while the copy takes the changes. *)
Theorem copy_equal_same_hash_independent :
  ∀ (py_hash : list (string * value) * list string → Z)
    (h : Heap.heap) (self : Heap.loc) (s : State),
    Heap.view h self = Some s →
    ∃ c h',
      Heap.copy self h = Some (c, h')
      ∧ c ≠ self
      ∧ Heap.view h' self = Some s
      ∧ Heap.State_eq c self h' = Some true
      ∧ Heap.State_eq self c h' = Some true
      ∧ Heap.State_hash py_hash self h' = Some (State_hash py_hash s)
      ∧ Heap.State_hash py_hash c h' = Heap.State_hash py_hash self h'
      ∧ ∀ ms : list mutation,
          ∃ h'', Heap.mutate_all c ms h' = Some h''
                 ∧ Heap.view h'' self = Some s
                 ∧ Heap.view h'' c
                   = Some (foldl (λ st m, mutate_value m st) s ms).
Proof.
  intros py_hash h self s Hv.
  destruct (copy_spec h self s Hv) as (c & h' & Hcopy & Hp & Hvc).
  destruct (private_fresh h h' c self s Hp Hv) as (Hne & Hfresh & Hsub & Hvs).
  exists c, h'. split; [exact Hcopy|]. split; [exact Hne|].
  split; [exact Hvs|].
  assert (Heq : dict_eq (facts s) (facts s)
                && bool_decide (goals s = goals s) = true)
    by apply (State_eq_refl s).
  unfold Heap.State_eq, Heap.State_hash. rewrite Hvc, Hvs. simpl.
  rewrite Heq. repeat split; try done.
  intros ms.
  destruct (mutate_all_private h c ms h' Hp) as (h'' & Hm & Hp'' & Hv'').
  exists h''. split; [exact Hm|]. split.
  - by destruct (private_fresh h h'' c self s Hp'' Hv) as (_ & _ & _ & ?).
  - by rewrite Hv'', Hvc.
Qed.

Lemma copy_equal_same_hash_independent_witness :
  Heap.view demo_heap 3%positive = Some demo_state
  ∧ ∃ c h', Heap.copy 3%positive demo_heap = Some (c, h')
            ∧ c ≠ 3%positive
            ∧ Heap.State_eq c 3%positive h' = Some true.
Proof.
  split; [reflexivity|].
  destruct (copy_equal_same_hash_independent (λ _, 0%Z) demo_heap 3%positive
              demo_state eq_refl)
    as (c & h' & H1 & H2 & _ & H3 & _).
  exists c, h'. split; [exact H1|]. split; [exact H2|exact H3].
Defined.

(** C9. [apply_action_effects] leaves its input as it was: the state it
    returns is an object that the store did not hold before, every object
    that the store held before - the input state, its facts dict and its
    goals set among them - is unchanged afterwards, and the effects are
    found in the returned state only. *)
Theorem apply_action_effects_leaves_input :
  ∀ (action : Action) (h : Heap.heap) (self : Heap.loc) (s : State),
    Heap.view h self = Some s →
    ∃ r h',
      Heap.apply_action_effects action self h = Some (r, h')
      ∧ r ≠ self
      ∧ h !! r = None
      ∧ h ⊆ h'
      ∧ Heap.view h' self = Some s
      ∧ Heap.view h' r = Some (StateManager.apply_action_effects action s).
Proof.
  intros action h self s Hv.
  destruct (apply_action_effects_spec action h self s Hv)
    as (r & h' & Happ & Hp & Hvr).
  destruct (private_fresh h h' r self s Hp Hv) as (Hne & Hfresh & Hsub & Hvs).
  by exists r, h'.
Qed.

Lemma apply_action_effects_leaves_input_witness :
  Heap.view demo_heap 3%positive = Some demo_state
  ∧ ∃ r h', Heap.apply_action_effects KnowledgeBase.CheckWeather 3%positive
              demo_heap = Some (r, h')
            ∧ r ≠ 3%positive
            ∧ Heap.view h' 3%positive = Some demo_state.
Proof.
  split; [reflexivity|].
  destruct (apply_action_effects_leaves_input KnowledgeBase.CheckWeather
              demo_heap 3%positive demo_state eq_refl)
    as (r & h' & H1 & H2 & _ & _ & H3 & _).
  exists r, h'. split; [exact H1|]. split; [exact H2|exact H3].
Defined.


(** * Further properties *)

(** ** Equality of values, dicts and states *)

Lemma py_eq_norm v w : py_eq v w = true ↔ norm v = norm w.
Proof.
  destruct v as [|a|n|s], w as [|b|m|t]; unfold py_eq; simpl;
    rewrite ?Z.eqb_eq, ?String.eqb_eq; split; intros H;
    try discriminate; try congruence; try reflexivity.
Qed.

Lemma py_eq_sym v w : py_eq v w = py_eq w v.
Proof.
  destruct (py_eq v w) eqn:E1, (py_eq w v) eqn:E2; try done.
  - apply py_eq_norm in E1. symmetry in E1. apply py_eq_norm in E1.
    congruence.
  - apply py_eq_norm in E2. symmetry in E2. apply py_eq_norm in E2.
    congruence.
Qed.

Lemma py_eq_trans u v w :
  py_eq u v = true → py_eq v w = true → py_eq u w = true.
Proof. rewrite !py_eq_norm. congruence. Qed.

Lemma dict_eq_spec (a b : gmap string value) :
  dict_eq a b = true ↔ ∀ k, same_entry (a !! k) (b !! k).
Proof.
  unfold dict_eq. rewrite andb_true_iff, Nat.eqb_eq, forallb_forall. split.
  - intros [Hsize Hall].
    assert (Hsub : dom a ⊆ dom b).
    { intros k [v Hk]%elem_of_dom.
      specialize (Hall (k, v)). simpl in Hall.
      destruct (b !! k) eqn:Eb; [by apply elem_of_dom|].
      discriminate Hall. by apply list_elem_of_In, elem_of_map_to_list. }
    assert (Hdom : dom a = dom b).
    { apply set_subseteq_size_eq; [done|]. rewrite !size_dom. lia. }
    intros k. unfold same_entry.
    destruct (a !! k) as [v|] eqn:Ea.
    + specialize (Hall (k, v)). simpl in Hall.
      destruct (b !! k) eqn:Eb.
      * apply Hall. by apply list_elem_of_In, elem_of_map_to_list.
      * discriminate Hall. by apply list_elem_of_In, elem_of_map_to_list.
    + destruct (b !! k) eqn:Eb; [|done].
      apply not_elem_of_dom in Ea. rewrite Hdom in Ea.
      apply not_elem_of_dom in Ea. congruence.
  - intros H. split.
    + rewrite <- !(size_dom (D := gset string)). f_equal.
      apply set_eq. intros k. rewrite !elem_of_dom.
      specialize (H k). unfold same_entry in H.
      destruct (a !! k), (b !! k); try done; split; intros [? ?]; done.
    + intros [k v] Hin. simpl.
      apply list_elem_of_In, elem_of_map_to_list in Hin.
      specialize (H k). rewrite Hin in H. simpl in H.
      by destruct (b !! k).
Qed.

Lemma State_eq_spec a b :
  State_eq a b = true
  ↔ goals a = goals b ∧ ∀ k, same_entry (facts a !! k) (facts b !! k).
Proof.
  unfold State_eq.
  rewrite andb_true_iff, dict_eq_spec, bool_decide_eq_true. tauto.
Qed.

Lemma State_eq_sym_true a b : State_eq a b = true → State_eq b a = true.
Proof.
  intros [Hg Hf]%State_eq_spec. apply State_eq_spec. split; [done|].
  intros k. specialize (Hf k). unfold same_entry in *.
  destruct (facts a !! k), (facts b !! k); try done.
  by rewrite py_eq_sym.
Qed.

Lemma State_eq_sym a b : State_eq a b = State_eq b a.
Proof.
  destruct (State_eq a b) eqn:E1, (State_eq b a) eqn:E2; try done.
  - apply State_eq_sym_true in E1. congruence.
  - apply State_eq_sym_true in E2. congruence.
Qed.

Lemma State_eq_trans a b c :
  State_eq a b = true → State_eq b c = true → State_eq a c = true.
Proof.
  intros [Hg1 Hf1]%State_eq_spec [Hg2 Hf2]%State_eq_spec.
  apply State_eq_spec. split; [congruence|]. intros k.
  specialize (Hf1 k). specialize (Hf2 k). unfold same_entry in *.
  destruct (facts a !! k), (facts b !! k), (facts c !! k); try done.
  by eapply py_eq_trans.
Qed.

(** X1. [State.__eq__] relates two states exactly when their goal sets are
    the same and their facts have the same keys with values that [==]
    identifies; it is reflexive, symmetric and transitive, as membership in
    the closed and visited sets needs. *)
Theorem State_eq_equivalence_on_contents :
  ∀ (a b c : State),
    (State_eq a b = true
     ↔ goals a = goals b ∧ ∀ k, same_entry (facts a !! k) (facts b !! k))
    ∧ State_eq a a = true
    ∧ State_eq a b = State_eq b a
    ∧ (State_eq a b = true → State_eq b c = true → State_eq a c = true).
Proof.
  intros a b c. split; [apply State_eq_spec|].
  split; [apply State_eq_refl|]. split; [apply State_eq_sym|].
  apply State_eq_trans.
Qed.

(** ** The hash of a state *)

#[local] Instance key_le_trans : Transitive key_le.
Proof. intros x y z. unfold key_le. apply transitivity. Qed.

#[local] Instance key_le_total : Total key_le.
Proof. intros x y. unfold key_le. apply total, _. Qed.

Lemma norm_facts_eq a b :
  State_eq a b = true → norm <$> facts a = norm <$> facts b.
Proof.
  intros [_ Hf]%State_eq_spec. apply map_eq. intros k.
  rewrite !lookup_fmap. specialize (Hf k). unfold same_entry in Hf.
  destruct (facts a !! k), (facts b !! k); simpl; try done.
  f_equal. by apply py_eq_norm.
Qed.

Lemma sorted_items_norm (m : gmap string value) :
  Sorted key_le (prod_map id norm <$> merge_sort key_le (map_to_list m))
  ∧ prod_map id norm <$> merge_sort key_le (map_to_list m)
    ≡ₚ map_to_list (norm <$> m).
Proof.
  split.
  - apply (Sorted_fmap _ key_le key_le); [by intros [? ?] [? ?]|].
    apply Sorted_merge_sort, _.
  - rewrite map_to_list_fmap. apply fmap_Permutation, merge_sort_Permutation.
Qed.

Lemma hash_key_items a b :
  State_eq a b = true →
  Forall2 item_eq (hash_key a).1 (hash_key b).1
  ∧ (hash_key a).2 = (hash_key b).2.
Proof.
  intros H. split.
  - unfold hash_key. simpl.
    destruct (sorted_items_norm (facts a)) as [Sa Pa].
    destruct (sorted_items_norm (facts b)) as [Sb Pb].
    rewrite (norm_facts_eq a b H) in Pa.
    assert (E : prod_map id norm <$> merge_sort key_le (map_to_list (facts a))
                = prod_map id norm <$> merge_sort key_le (map_to_list (facts b))).
    { apply (Sorted_unique_strong key_le); [|done|done|by rewrite Pa, Pb].
      intros [k1 v1] [k2 v2] H1 H2 L1 L2.
      rewrite Pa in H1. rewrite Pb in H2.
      apply elem_of_map_to_list in H1, H2.
      unfold key_le in L1, L2. simpl in L1, L2.
      assert (k1 = k2) as -> by (by apply (anti_symm String.le)).
      congruence. }
    revert E.
    generalize (merge_sort key_le (map_to_list (facts a))).
    generalize (merge_sort key_le (map_to_list (facts b))).
    intros lb la. revert lb.
    induction la as [|[k v] la IH]; intros [|[k' w] lb] E;
      try discriminate E.
    + constructor.
    + simpl in E. injection E as Ek Ev E. constructor; [|by apply IH].
      split; [done|]. by apply py_eq_norm.
  - unfold hash_key. simpl.
    apply State_eq_spec in H as [-> _]. done.
Qed.

(** X2. The hash of a state agrees with its equality: for any hash of tuples
    that gives equal tuples the same hash, as Python's does, two states that
    [__eq__] identifies have the same [__hash__].  A set of states can thus
    find an equal state by its hash. *)
Theorem State_hash_respects_eq :
  ∀ (py_hash : list (string * value) * list string → Z) (a b : State),
    (∀ t1 t2, Forall2 item_eq t1.1 t2.1 → t1.2 = t2.2 →
              py_hash t1 = py_hash t2) →
    State_eq a b = true →
    State_hash py_hash a = State_hash py_hash b.
Proof.
  intros py_hash a b Hhash Heq. unfold State_hash.
  destruct (hash_key_items a b Heq). by apply Hhash.
Qed.

Lemma State_hash_respects_eq_witness :
  State_eq (mkState {["location_valid" := VBool true]} ∅)
    (mkState {["location_valid" := VInt 1]} ∅) = true
  ∧ State_hash (λ t, Z.of_nat (length t.1 + length t.2))
      (mkState {["location_valid" := VBool true]} ∅)
    = State_hash (λ t, Z.of_nat (length t.1 + length t.2))
        (mkState {["location_valid" := VInt 1]} ∅).
Proof.
  split; [reflexivity|].
  apply State_hash_respects_eq; [|reflexivity].
  intros t1 t2 H1 H2. by rewrite (Forall2_length _ _ _ H1), H2.
Defined.


(** ** Goals *)

Lemma is_goal_satisfied_true s g :
  is_goal_satisfied s g = true ↔ facts s !! g = Some (VBool true).
Proof.
  unfold is_goal_satisfied, has_fact, get_fact.
  destruct (facts s !! g) as [v|]; simpl.
  - rewrite is_True_spec. split; congruence.
  - split; discriminate.
Qed.

Lemma forallb_goals s (X : gset string) :
  forallb (is_goal_satisfied s) (elements X) = true
  ↔ ∀ g, g ∈ X → facts s !! g = Some (VBool true).
Proof.
  rewrite forallb_forall. split.
  - intros H g Hg. apply is_goal_satisfied_true, H, list_elem_of_In.
    by apply elem_of_elements.
  - intros H g Hg. apply is_goal_satisfied_true, H.
    by apply elem_of_elements, list_elem_of_In.
Qed.

(** X3. The goal test of the planner holds exactly when the goal set is not
    empty and every goal is a fact whose value is the boolean [True].  On an
    empty goal set it differs from [State.all_goals_satisfied], which holds
    there: a state with no goals has all its goals satisfied and yet never
    counts as a reached goal. *)
Theorem goal_reached_iff_nonempty_and_all_True :
  ∀ (state goal_state : State),
    (AStarPlanner._is_goal_reached state goal_state = true
     ↔ goals goal_state ≠ ∅
       ∧ ∀ g, g ∈ goals goal_state → facts state !! g = Some (VBool true))
    ∧ (all_goals_satisfied state = true
       ↔ ∀ g, g ∈ goals state → facts state !! g = Some (VBool true))
    ∧ (goals state = ∅ →
       all_goals_satisfied state = true
       ∧ AStarPlanner._is_goal_reached state state = false).
Proof.
  intros state goal_state. split; [|split].
  - unfold AStarPlanner._is_goal_reached. case_bool_decide as He.
    + split; [discriminate|]. by intros [? _].
    + rewrite forallb_goals. tauto.
  - unfold all_goals_satisfied. apply forallb_goals.
  - intros He. split.
    + unfold all_goals_satisfied. apply forallb_goals. intros g.
      rewrite He. set_solver.
    + unfold AStarPlanner._is_goal_reached. by rewrite bool_decide_eq_true_2.
Qed.

(** X4. The heuristic is zero on every state that satisfies all the goals
    (a reached goal in particular), so the [f_cost] of a goal node is its
    [g_cost]. *)
Theorem heuristic_zero_when_goals_satisfied :
  ∀ (state goal_state : State),
    (∀ g, g ∈ goals goal_state → is_goal_satisfied state g = true) →
    AStarPlanner.calculate_heuristic state goal_state = 0%float.
Proof.
  intros state goal_state H. unfold AStarPlanner.calculate_heuristic.
  assert (E : List.filter (λ goal, negb (is_goal_satisfied state goal))
                (elements (goals goal_state)) = []).
  { assert (Hall : ∀ g, g ∈ elements (goals goal_state) →
                        is_goal_satisfied state g = true).
    { intros g Hg. by apply H, elem_of_elements. }
    induction (elements (goals goal_state)) as [|g l IH]; simpl; [done|].
    rewrite Hall by left. simpl. apply IH. intros g' Hg'. apply Hall.
    by right. }
  rewrite E. reflexivity.
Qed.

Lemma heuristic_zero_when_goals_satisfied_witness :
  (∀ g, g ∈ goals weather_goal → is_goal_satisfied scenario_C_state g = true)
  ∧ AStarPlanner.calculate_heuristic scenario_C_state weather_goal = 0%float.
Proof.
  assert (H : ∀ g, g ∈ goals weather_goal →
                   is_goal_satisfied scenario_C_state g = true).
  { intros g Hg. unfold weather_goal in Hg. simpl in Hg.
    apply elem_of_singleton in Hg as ->. reflexivity. }
  split; [exact H|].
  exact (heuristic_zero_when_goals_satisfied _ _ H).
Defined.

(** ** Successors and effects *)

(** The successors of a state are the pairs of an action of the catalog
    whose preconditions hold there and the state its effects lead to, in
    the order of the catalog. *)
Lemma successors_are_the_applicable_actions :
  ∀ (state : State) (available_actions : list Action),
    StateManager.generate_successor_states state available_actions
    = (λ a, (StateManager.apply_action_effects a state, a))
        <$> List.filter (λ a, StateManager.check_preconditions a state)
              available_actions.
Proof.
  intros state acts. induction acts as [|a acts IH]; simpl; [done|].
  destruct (StateManager.check_preconditions a state); simpl; by rewrite IH.
Qed.

(** X5. Applying the effects of an action only adds or overwrites the facts
    that the action names: the goals stay, no fact disappears, and every
    fact that is not among the effects keeps its value. *)
Theorem apply_action_effects_frame :
  ∀ (action : Action) (state : State),
    goals (StateManager.apply_action_effects action state) = goals state
    ∧ dom (facts (StateManager.apply_action_effects action state))
      = dom (default ∅ (act_effects action)) ∪ dom (facts state)
    ∧ ∀ k, default ∅ (act_effects action) !! k = None →
           facts (StateManager.apply_action_effects action state) !! k
           = facts state !! k.
Proof.
  intros action state. split; [apply apply_action_effects_goals|]. split.
  - apply set_eq. intros k. rewrite elem_of_union, !elem_of_dom.
    rewrite apply_action_effects_lookup.
    destruct (default ∅ (act_effects action) !! k) eqn:E.
    + split; [by left|by eexists].
    + split; [by right|]. intros [[? ?]|?]; done.
  - intros k Hk. by rewrite apply_action_effects_lookup, Hk.
Qed.

(** X6. When no effect of an action is the placeholder [None], the two
    effect applications agree: the facts that [KnowledgeBase.apply_effects]
    returns for the facts of a state are the facts of the state that
    [StateManager.apply_action_effects] returns. *)
Theorem apply_effects_agree_without_placeholder :
  ∀ (action : Action) (state : State),
    (∀ k, default ∅ (act_effects action) !! k ≠ Some VNone) →
    KnowledgeBase.apply_effects action (facts state)
    = facts (StateManager.apply_action_effects action state).
Proof.
  intros action state Hno. apply map_eq. intros k.
  rewrite KB_apply_effects_lookup, apply_action_effects_lookup.
  destruct (default ∅ (act_effects action) !! k) as [v|] eqn:E; [|done].
  destruct v; try done. by destruct (Hno k).
Qed.

Lemma apply_effects_agree_without_placeholder_witness :
  (∀ k, default ∅ (act_effects
                     (entry "SendEmail" ["recipient"; "subject"; "body"]
                        [("recipient_valid", T); ("email_content_ready", T)]
                        [("email_sent", T)] 2.0 3.0 [] "email_service"
                        "Send an email to a recipient")) !! k ≠ Some VNone)
  ∧ KnowledgeBase.apply_effects
      (entry "SendEmail" ["recipient"; "subject"; "body"]
         [("recipient_valid", T); ("email_content_ready", T)]
         [("email_sent", T)] 2.0 3.0 [] "email_service"
         "Send an email to a recipient") (facts scenario_B_state)
    = facts (StateManager.apply_action_effects
               (entry "SendEmail" ["recipient"; "subject"; "body"]
                  [("recipient_valid", T); ("email_content_ready", T)]
                  [("email_sent", T)] 2.0 3.0 [] "email_service"
                  "Send an email to a recipient") scenario_B_state).
Proof.
  assert (H : ∀ k, default ∅ (act_effects
                     (entry "SendEmail" ["recipient"; "subject"; "body"]
                        [("recipient_valid", T); ("email_content_ready", T)]
                        [("email_sent", T)] 2.0 3.0 [] "email_service"
                        "Send an email to a recipient")) !! k ≠ Some VNone).
  { intros k. simpl. rewrite insert_empty.
    intros [_ [=]]%lookup_singleton_Some. }
  split; [exact H|].
  exact (apply_effects_agree_without_placeholder _ _ H).
Defined.

(** ** The catalog *)




(** ** Dependencies *)

Lemma all_executed_spec (deps : list string) (E : gset (option string)) :
  KnowledgeBase.all_executed deps E = true ↔ ∀ dep, dep ∈ deps → Some dep ∈ E.
Proof.
  induction deps as [|d deps IH]; simpl.
  - split; [|done]. intros _ dep Hd. by apply elem_of_nil in Hd.
  - case_bool_decide as Hd; simpl.
    + rewrite IH. split.
      * intros H dep [->|Hin]%elem_of_cons; auto.
      * intros H dep Hin. apply H. by right.
    + split; [discriminate|]. intros H. destruct Hd. apply H. by left.
Qed.

Lemma sequence_loop_spec (actions : list Action) :
  ∀ (E : gset (option string)),
  KnowledgeBase.sequence_loop actions E = true
  ↔ ∀ i a dep, actions !! i = Some a →
      dep ∈ KnowledgeBase.get_action_dependencies a →
      Some dep ∈ E
      ∨ ∃ j b, j < i ∧ actions !! j = Some b ∧ act_name b = Some dep.
Proof.
  induction actions as [|a0 actions IH]; intros E; simpl.
  - split; [|done]. intros _ i a dep Hi. by rewrite lookup_nil in Hi.
  - destruct (KnowledgeBase.all_executed
                (KnowledgeBase.get_action_dependencies a0) E) eqn:Hall; simpl.
    + rewrite IH. rewrite all_executed_spec in Hall. split.
      * intros H [|i] a dep Hi Hdep; simpl in Hi.
        -- injection Hi as <-. left. by apply Hall.
        -- destruct (H i a dep Hi Hdep) as [[Hn|Hin]%elem_of_union|Hj].
           ++ apply elem_of_singleton in Hn. right.
              exists 0, a0. split; [lia|]. by split.
           ++ by left.
           ++ destruct Hj as (j & b & Hlt & Hj & Hb). right.
              exists (S j), b. split; [lia|]. by split.
      * intros H i a dep Hi Hdep.
        destruct (H (S i) a dep Hi Hdep) as [Hin|(j & b & Hlt & Hj & Hb)].
        -- left. apply elem_of_union. by right.
        -- destruct j as [|j]; simpl in Hj.
           ++ injection Hj as <-. left. apply elem_of_union. left.
              by apply elem_of_singleton.
           ++ right. exists j, b. split; [lia|]. by split.
    + split; [discriminate|]. intros H.
      assert (KnowledgeBase.all_executed
                (KnowledgeBase.get_action_dependencies a0) E = true);
        [|congruence].
      apply all_executed_spec. intros dep Hdep.
      destruct (H 0 a0 dep eq_refl Hdep) as [?|(j & b & Hlt & _)];
        [done|lia].
Qed.

(** X8. [validate_action_sequence] accepts a sequence exactly when every
    dependency of every action is the name of an action that stands earlier
    in the sequence.  In particular a sequence whose first action declares a
    dependency is rejected. *)
Theorem validate_action_sequence_iff_dependencies_precede :
  ∀ (actions : list Action),
    (KnowledgeBase.validate_action_sequence actions = true
     ↔ ∀ i a dep, actions !! i = Some a →
         dep ∈ KnowledgeBase.get_action_dependencies a →
         ∃ j b, j < i ∧ actions !! j = Some b ∧ act_name b = Some dep)
    ∧ (∀ a dep rest, actions = a :: rest →
         dep ∈ KnowledgeBase.get_action_dependencies a →
         KnowledgeBase.validate_action_sequence actions = false).
Proof.
  intros actions.
  assert (Hiff : KnowledgeBase.validate_action_sequence actions = true
     ↔ ∀ i a dep, actions !! i = Some a →
         dep ∈ KnowledgeBase.get_action_dependencies a →
         ∃ j b, j < i ∧ actions !! j = Some b ∧ act_name b = Some dep).
  { unfold KnowledgeBase.validate_action_sequence.
    rewrite sequence_loop_spec. split.
    - intros H i a dep Hi Hdep.
      destruct (H i a dep Hi Hdep) as [Hin|?]; [|done].
      by apply not_elem_of_empty in Hin.
    - intros H i a dep Hi Hdep. right. by eapply H. }
  split; [exact Hiff|].
  intros a dep rest -> Hdep. apply not_true_is_false. rewrite Hiff.
  intros H. destruct (H 0 a dep eq_refl Hdep) as (j & b & Hlt & _). lia.
Qed.

(** ** Validation of plans *)

Lemma validate_loop_app p q s :
  AStarPlanner.validate_loop (p ++ q) s
  = AStarPlanner.validate_loop p s
    && AStarPlanner.validate_loop q (run_effects p s).
Proof.
  revert s. induction p as [|a p IH]; intros s; simpl; [done|].
  destruct (StateManager.check_preconditions a s); simpl; [apply IH|done].
Qed.

(** X9. Validating a plan made of two parts is validating the first part
    from the initial state and the second part from the state that the
    effects of the first part lead to; the empty plan is valid from every
    state. *)
Theorem validate_plan_of_concatenation :
  ∀ (p q : list Action) (initial_state : State),
    AStarPlanner.validate_plan (p ++ q) initial_state
    = AStarPlanner.validate_plan p initial_state
      && AStarPlanner.validate_plan q (run_effects p initial_state)
    ∧ AStarPlanner.validate_plan [] initial_state = true.
Proof.
  intros p q s. split; [|done].
  unfold AStarPlanner.validate_plan. rewrite !copy_id.
  apply validate_loop_app.
Qed.

(** ** Invariants of the search *)

Lemma state_in_spec s set :
  state_in s set = true ↔ ∃ t, t ∈ set ∧ State_eq t s = true.
Proof.
  unfold state_in. rewrite existsb_exists. split.
  - intros (t & Hin & Ht). exists t. by rewrite list_elem_of_In.
  - intros (t & Hin & Ht). exists t. by rewrite <- list_elem_of_In.
Qed.

Lemma state_in_add s t set :
  state_in s (state_add t set) = State_eq t s || state_in s set.
Proof.
  unfold state_add. destruct (state_in t set) eqn:Ht; [|done].
  destruct (State_eq t s) eqn:Hts; [|done]. simpl.
  apply state_in_spec in Ht as (u & Hin & Hu).
  apply state_in_spec. exists u. split; [done|].
  by apply (State_eq_trans u t s).
Qed.

Lemma successors_from_catalog s acts :
  Forall (λ sa, sa.2 ∈ acts
                ∧ StateManager.check_preconditions sa.2 s = true
                ∧ sa.1 = StateManager.apply_action_effects sa.2 s)
    (StateManager.generate_successor_states s acts).
Proof.
  induction acts as [|a acts IH]; simpl; [done|].
  destruct (StateManager.check_preconditions a s) eqn:Hc.
  - constructor; [by repeat split; [left|..]|].
    eapply Forall_impl; [exact IH|]. intros [st b] (? & ? & ?).
    repeat split; try done. by right.
  - eapply Forall_impl; [exact IH|]. intros [st b] (? & ? & ?).
    repeat split; try done. by right.
Qed.

Section PlannerInvariant.
Variable actions : list Action.
Variable goal_state : State.

(** A property of search nodes that holds of every child built from a node
    that has it, by an applicable action of the catalog that changes the
    state. *)
Variable P : Node → Prop.
Hypothesis P_child : ∀ cur a g h f,
  P cur → a ∈ actions →
  StateManager.check_preconditions a (n_state cur) = true →
  State_eq (n_state cur) (StateManager.apply_action_effects a (n_state cur))
  = false →
  P (mkNode (StateManager.apply_action_effects a (n_state cur)) (Some cur)
       (Some a) g h f).

Lemma expand_invariant closed_set current_node :
  P current_node →
  state_in (n_state current_node) closed_set = true →
  ∀ successors open_set visited_states open_set' visited_states',
    Forall (λ sa, sa.2 ∈ actions
                  ∧ StateManager.check_preconditions sa.2
                      (n_state current_node) = true
                  ∧ sa.1 = StateManager.apply_action_effects sa.2
                             (n_state current_node)) successors →
    Forall P open_set →
    AStarPlanner.expand successors current_node goal_state closed_set
      open_set visited_states = Some (open_set', visited_states') →
    Forall P open_set'.
Proof.
  intros Hcur Hclosed.
  induction successors as [|[new_state action] rest IH];
    intros open_set visited_states open' visited' Hsucc Hopen Hexp;
    simpl in Hexp.
  - by injection Hexp as <- <-.
  - apply Forall_cons in Hsucc as [(Hin & Hc & Hst) Hsucc].
    simpl in Hin, Hc, Hst.
    destruct (state_in new_state closed_set) eqn:Hcl; [by eapply IH|].
    assert (Hne : State_eq (n_state current_node) new_state = false).
    { destruct (State_eq (n_state current_node) new_state) eqn:E; [|done].
      apply state_in_spec in Hclosed as (t & Ht & Hts).
      assert (state_in new_state closed_set = true); [|congruence].
      apply state_in_spec. exists t. split; [done|].
      by apply (State_eq_trans t (n_state current_node) new_state). }
    match type of Hexp with
    | context [Node_init ?a ?b ?c ?d ?e] =>
        assert (Hnew : P (Node_init a b c d e))
    end.
    { unfold Node_init. rewrite Hst. apply P_child; try done.
      by rewrite <- Hst. }
    destruct (state_in new_state visited_states); simpl in Hexp.
    + match type of Hexp with
      | context [AStarPlanner.better_path 0 open_set open_set ?n ?s] =>
          destruct (better_path_ok n s open_set 0 open_set)
            as (open1 & E1 & _ & Hkeep); [done|]
      end.
      rewrite E1 in Hexp. cbn [mbind option_bind] in Hexp.
      eapply IH; [done| |exact Hexp].
      apply Hkeep; [by constructor|done].
    + match type of Hexp with
      | context [heapq.heappush Node_lt open_set ?n] =>
          destruct (heappush_ok Node_lt open_set n)
            as (open1 & E1 & _ & Hkeep)
      end.
      rewrite E1 in Hexp. cbn [mbind option_bind] in Hexp.
      eapply IH; [done| |exact Hexp].
      apply Hkeep; [by constructor|done].
Qed.

Lemma search_invariant max_iterations fuel :
  ∀ iteration open_set closed_set visited_states o,
    Forall P open_set →
    AStarPlanner.search actions fuel max_iterations goal_state iteration
      open_set closed_set visited_states = Some o →
    taken o = GoalReached →
    ∃ n, P n ∧ returned o = AStarPlanner.reconstruct_path n
         ∧ AStarPlanner._is_goal_reached (n_state n) goal_state = true.
Proof.
  induction fuel as [|fuel IH];
    intros iteration open_set closed_set visited_states o Hopen Hs Ht;
    simpl in Hs.
  - destruct (negb (bool_decide (open_set = []))
              && (iteration <? max_iterations)%Z); [done|].
    injection Hs as <-. done.
  - destruct (negb (bool_decide (open_set = []))
              && (iteration <? max_iterations)%Z) eqn:Hcond.
    2:{ injection Hs as <-. done. }
    apply andb_true_iff in Hcond as [Hnil _].
    apply negb_true_iff, bool_decide_eq_false in Hnil.
    destruct (heappop_ok Node_lt open_set Hnil)
      as (current & open1 & E1 & _ & Hpop).
    rewrite E1 in Hs. cbn [mbind option_bind] in Hs.
    destruct (Hpop _ Hopen) as [Hcur Hopen1].
    destruct (AStarPlanner._is_goal_reached (n_state current) goal_state)
      eqn:Hgoal.
    + injection Hs as <-. simpl. eauto.
    + destruct (AStarPlanner.expand
                  (AStarPlanner.generate_successors actions (n_state current))
                  current goal_state (state_add (n_state current) closed_set)
                  open1 visited_states) as [[open2 visited2]|] eqn:E2;
        [|done].
      cbn [mbind option_bind] in Hs.
      eapply IH; [|exact Hs|exact Ht].
      eapply (expand_invariant _ current Hcur); [| |exact Hopen1|exact E2].
      * rewrite state_in_add. by rewrite State_eq_refl.
      * apply successors_from_catalog.
Qed.

Lemma plan_outcome_invariant current_state max_iterations o :
  (∀ g h f, P (mkNode (copy current_state) None None g h f)) →
  AStarPlanner.plan_outcome actions current_state goal_state max_iterations
  = Some o →
  taken o = GoalReached →
  ∃ n, P n ∧ returned o = AStarPlanner.reconstruct_path n
       ∧ AStarPlanner._is_goal_reached (n_state n) goal_state = true.
Proof.
  intros Hroot Ho Ht. unfold AStarPlanner.plan_outcome in Ho.
  destruct (AStarPlanner._is_goal_reached current_state goal_state).
  - injection Ho as <-. done.
  - eapply search_invariant; [|exact Ho|exact Ht].
    constructor; [apply Hroot|constructor].
Qed.

End PlannerInvariant.

(** ** What a returned plan is *)

Lemma replay_run_effects p s t : replay p s = Some t → t = run_effects p s.
Proof.
  revert s. induction p as [|a p IH]; intros s H; simpl in *.
  - by injection H.
  - destruct (StateManager.check_preconditions a s); [by apply IH|done].
Qed.

Lemma child_path_nonempty init cur a g h f st :
  sound init cur → action_truthy a = true →
  AStarPlanner.reconstruct_path (mkNode st (Some cur) (Some a) g h f) ≠ [].
Proof.
  intros Hs Ha. unfold AStarPlanner.reconstruct_path. simpl. rewrite Ha.
  rewrite (sound_path_app init cur Hs [a]). by destruct (AStarPlanner.reconstruct_loop cur []).
Qed.

Lemma changing_action_truthy a s :
  State_eq s (StateManager.apply_action_effects a s) = false →
  action_truthy a = true.
Proof.
  intros H. destruct (action_truthy a) eqn:E; [done|].
  rewrite falsy_action_no_effect in H by done.
  by rewrite State_eq_refl in H.
Qed.

Lemma goal_node_has_path actions cs gs max o :
  AStarPlanner.plan_outcome actions cs gs max = Some o →
  taken o = GoalReached →
  AStarPlanner._is_goal_reached cs gs = false →
  returned o ≠ [].
Proof.
  intros Ho Ht Hnot.
  destruct (plan_outcome_invariant actions gs
              (λ n, sound cs n
                    ∧ (n_state n = copy cs
                       ∨ AStarPlanner.reconstruct_path n ≠ []))
              ) with (current_state := cs) (max_iterations := max) (o := o)
    as (n & [Hs Hn] & Hret & Hgoal); try done.
  - intros cur a g h f [Hs Hn] Hin Hc Hne. split; [by constructor|].
    right. eapply child_path_nonempty; [done|].
    by eapply changing_action_truthy.
  - intros g h f. split; [constructor|by left].
  - destruct Hn as [Hn|Hn]; [|by rewrite Hret].
    rewrite Hn, copy_id in Hgoal. congruence.
Qed.

(** X10. The list that [plan] returns is non-empty exactly when [plan]
    leaves by the success [return] of the search loop: a goal reached by
    the search always comes with at least one action, and both other
    [return]s give the empty list. *)
Theorem plan_nonempty_iff_goal_reached_by_search :
  ∀ (actions : list Action) (current_state goal_state : State)
    (max_iterations : Z),
    ∃ o, AStarPlanner.plan_outcome actions current_state goal_state
           max_iterations = Some o
       ∧ AStarPlanner.plan actions current_state goal_state max_iterations
         = Some (returned o)
       ∧ (returned o ≠ [] ↔ taken o = GoalReached).
Proof.
  intros actions cs gs max.
  destruct (plan_outcome_ok actions cs gs max)
    as (o & Ho & Hiff & Hshort & Hpost).
  exists o. split; [exact Ho|]. split.
  { unfold AStarPlanner.plan. by rewrite Ho. }
  split.
  - intros Hne. destruct (taken o) eqn:E; [|done|].
    + by destruct Hshort.
    + destruct Hpost as (_ & _ & Ht); [done|]. rewrite E in Ht.
      by destruct Ht.
  - intros Ht. eapply goal_node_has_path; [exact Ho|exact Ht|].
    destruct (AStarPlanner._is_goal_reached cs gs) eqn:E; [|done].
    assert (taken o = GoalAlreadySatisfied) by by apply Hiff.
    congruence.
Qed.

Lemma plan_replays actions cs gs max p :
  AStarPlanner.plan actions cs gs max = Some p →
  ∃ t, replay p (copy cs) = Some t
       ∧ (p ≠ [] → AStarPlanner._is_goal_reached t gs = true).
Proof.
  intros Hplan. unfold AStarPlanner.plan in Hplan.
  destruct (plan_outcome_ok actions cs gs max)
    as (o & Ho & _ & Hshort & Hpost).
  rewrite Ho in Hplan. simpl in Hplan. injection Hplan as <-.
  destruct (taken o) eqn:E.
  - destruct Hshort as [-> _]; [done|]. by exists (copy cs).
  - destruct Hpost as (_ & _ & Ht); [done|]. rewrite E in Ht.
    destruct Ht as (n & Hs & Hret & Hgoal).
    exists (n_state n). split; [|done].
    rewrite Hret. by apply sound_replay.
  - destruct Hpost as (_ & _ & Ht); [done|]. rewrite E in Ht.
    destruct Ht as [-> _]. by exists (copy cs).
Qed.

(** X11. A non-empty plan that [plan] returns achieves the goals: in the
    state reached from the initial state by the effects of its actions,
    applied in order, every goal of the goal state is a fact with the
    boolean [True] as its value. *)
Theorem nonempty_plan_reaches_goal :
  ∀ (actions : list Action) (current_state goal_state : State)
    (max_iterations : Z) (p : list Action),
    AStarPlanner.plan actions current_state goal_state max_iterations = Some p →
    p ≠ [] →
    AStarPlanner._is_goal_reached (run_effects p current_state) goal_state
    = true
    ∧ ∀ g, g ∈ goals goal_state →
        facts (run_effects p current_state) !! g = Some (VBool true).
Proof.
  intros actions cs gs max p Hplan Hne.
  destruct (plan_replays actions cs gs max p Hplan) as (t & Hrep & Hgoal).
  apply replay_run_effects in Hrep. rewrite copy_id in Hrep. subst t.
  specialize (Hgoal Hne). split; [exact Hgoal|].
  unfold AStarPlanner._is_goal_reached in Hgoal.
  case_bool_decide; [done|]. by apply forallb_goals.
Qed.

Lemma nonempty_plan_reaches_goal_witness :
  AStarPlanner.plan KnowledgeBase._initialize_actions scenario_B_state
    weather_goal 1000 = Some [KnowledgeBase.CheckWeather]
  ∧ [KnowledgeBase.CheckWeather] ≠ []
  ∧ AStarPlanner._is_goal_reached
      (run_effects [KnowledgeBase.CheckWeather] scenario_B_state)
      weather_goal = true.
Proof.
  assert (H : AStarPlanner.plan KnowledgeBase._initialize_actions
                scenario_B_state weather_goal 1000
              = Some [KnowledgeBase.CheckWeather]).
  { vm_compute. reflexivity. }
  assert (Hne : [KnowledgeBase.CheckWeather] ≠ []) by discriminate.
  split; [exact H|]. split; [exact Hne|].
  exact (proj1 (nonempty_plan_reaches_goal _ _ _ _ _ H Hne)).
Defined.

(** ** Goals that cannot be planned *)






(** X14. The plan that [plan] returns is not always a cheapest one.  The
    heuristic counts 3.0 for an unsatisfied goal, whatever the actions
    cost, so a direct action of cost 2.5 is taken before a first step of
    cost 0.25 is looked at: with the catalog [detour_catalog], [plan]
    returns the direct action, while the two cheap steps also form a valid
    plan that reaches the goal, at a lower cost. *)
Theorem plan_can_miss_a_cheaper_plan :
  ∃ (actions : list Action) (current_state goal_state : State)
    (p q : list Action),
    AStarPlanner.plan actions current_state goal_state 1000 = Some p
    ∧ AStarPlanner.validate_plan q current_state = true
    ∧ AStarPlanner._is_goal_reached (run_effects q current_state) goal_state
      = true
    ∧ PrimFloat.ltb (plan_cost q) (plan_cost p) = true.
Proof.
  exists detour_catalog, (mkState ∅ ∅), done_goal.
  exists (take 1 detour_catalog), (drop 1 detour_catalog).
  repeat split; vm_compute; reflexivity.
Qed.

(** ** A state built on a caller's dict *)

Lemma State_init_on_dict (h : Heap.heap) (f : Heap.loc) d :
  h !! f = Some (Heap.ODict d) → d ≠ ∅ →
  ∃ s g, Heap.State_init (Some f) h
         = Some (s, <[s := Heap.OState f g]> (<[g := Heap.OSet ∅]> h))
         ∧ h !! g = None ∧ h !! s = None ∧ s ≠ g.
Proof.
  intros Hf Hd. unfold Heap.State_init, Heap.dict_at. rewrite Hf.
  cbn [mbind option_bind]. rewrite bool_decide_eq_false_2 by done.
  cbn [mbind option_bind].
  destruct (alloc_spec (Heap.OSet ∅) h) as (g & -> & Fg).
  destruct (alloc_spec (Heap.OState f g) (<[g := Heap.OSet ∅]> h))
    as (s & -> & Fs).
  apply lookup_insert_None in Fs as [Fs Hne].
  exists s, g. by repeat split.
Qed.

(** X15. [State(facts)] on a non-empty dict keeps that very dict: two states
    built on it are different objects with the same facts, and a
    [set_fact] on one of them shows in the other and in the caller's dict.
    On an empty dict the state makes a dict of its own, and the caller's
    dict stays empty. *)
Theorem State_init_shares_a_nonempty_dict :
  ∀ (h : Heap.heap) (f : Heap.loc) (d : gmap string value),
    h !! f = Some (Heap.ODict d) →
    (d ≠ ∅ →
     ∃ s1 h1 s2 h2,
       Heap.State_init (Some f) h = Some (s1, h1)
       ∧ Heap.State_init (Some f) h1 = Some (s2, h2)
       ∧ s1 ≠ s2
       ∧ Heap.view h2 s1 = Some (mkState d ∅)
       ∧ Heap.view h2 s2 = Some (mkState d ∅)
       ∧ ∀ k v, ∃ h3,
           Heap.set_fact s1 k v h2 = Some h3
           ∧ Heap.view h3 s2 = Some (mkState (<[k := v]> d) ∅)
           ∧ Heap.dict_at h3 f = Some (<[k := v]> d))
    ∧ (d = ∅ →
       ∃ s1 h1,
         Heap.State_init (Some f) h = Some (s1, h1)
         ∧ Heap.view h1 s1 = Some (mkState ∅ ∅)
         ∧ ∀ k v, ∃ h3,
             Heap.set_fact s1 k v h1 = Some h3
             ∧ Heap.view h3 s1 = Some (mkState {[k := v]} ∅)
             ∧ Heap.dict_at h3 f = Some ∅).
Proof.
  intros h f d Hf. split.
  - intros Hd.
    destruct (State_init_on_dict h f d Hf Hd) as (s1 & g1 & E1 & Fg1 & Fs1 & N1).
    set (h1 := <[s1 := Heap.OState f g1]> (<[g1 := Heap.OSet ∅]> h)) in *.
    assert (Nf1 : s1 ≠ f) by congruence.
    assert (Nfg1 : g1 ≠ f) by congruence.
    assert (Hf1 : h1 !! f = Some (Heap.ODict d)).
    { unfold h1. by rewrite !lookup_insert_ne by done. }
    destruct (State_init_on_dict h1 f d Hf1 Hd)
      as (s2 & g2 & E2 & Fg2 & Fs2 & N2).
    set (h2 := <[s2 := Heap.OState f g2]> (<[g2 := Heap.OSet ∅]> h1)) in *.
    assert (Hs1 : h1 !! s1 = Some (Heap.OState f g1)).
    { unfold h1. by rewrite lookup_insert_eq. }
    assert (Hg1 : h1 !! g1 = Some (Heap.OSet ∅)).
    { unfold h1. rewrite lookup_insert_ne by done.
      by rewrite lookup_insert_eq. }
    assert (N21 : s2 ≠ s1) by congruence.
    assert (Ng21 : g2 ≠ s1) by congruence.
    assert (N2g1 : s2 ≠ g1) by congruence.
    assert (Ng2g1 : g2 ≠ g1) by congruence.
    assert (N2f : s2 ≠ f) by congruence.
    assert (Ng2f : g2 ≠ f) by congruence.
    assert (H2s1 : h2 !! s1 = Some (Heap.OState f g1)).
    { unfold h2. by rewrite !lookup_insert_ne by done. }
    assert (H2g1 : h2 !! g1 = Some (Heap.OSet ∅)).
    { unfold h2. by rewrite !lookup_insert_ne by done. }
    assert (H2f : h2 !! f = Some (Heap.ODict d)).
    { unfold h2. by rewrite !lookup_insert_ne by done. }
    assert (H2s2 : h2 !! s2 = Some (Heap.OState f g2)).
    { unfold h2. by rewrite lookup_insert_eq. }
    assert (H2g2 : h2 !! g2 = Some (Heap.OSet ∅)).
    { unfold h2. rewrite lookup_insert_ne by done.
      by rewrite lookup_insert_eq. }
    exists s1, h1, s2, h2. split; [exact E1|]. split; [exact E2|].
    split; [done|]. split; [|split].
    + apply view_Some. by exists f, g1.
    + apply view_Some. by exists f, g2.
    + intros k v. unfold Heap.set_fact, Heap.state_at, Heap.dict_at.
      rewrite H2s1. cbn [mbind option_bind]. rewrite H2f.
      cbn [mbind option_bind]. eexists; split; [done|]. split.
      * apply view_Some. exists f, g2. simpl.
        rewrite lookup_insert_eq, !lookup_insert_ne by done. done.
      * by rewrite lookup_insert_eq.
  - intros ->. unfold Heap.State_init, Heap.dict_at. rewrite Hf.
    cbn [mbind option_bind]. rewrite bool_decide_eq_true_2 by done.
    destruct (alloc_spec (Heap.ODict ∅) h) as (f1 & -> & Ff1).
    cbn [mbind option_bind].
    set (h0 := <[f1 := Heap.ODict ∅]> h).
    destruct (alloc_spec (Heap.OSet ∅) h0) as (g1 & -> & Fg1).
    destruct (alloc_spec (Heap.OState f1 g1) (<[g1 := Heap.OSet ∅]> h0))
      as (s1 & -> & Fs1).
    apply lookup_insert_None in Fs1 as [Fs1 Nsg].
    unfold h0 in Fg1, Fs1.
    apply lookup_insert_None in Fg1 as [Fg1 Ngf1].
    apply lookup_insert_None in Fs1 as [Fs1 Nsf1].
    assert (Nf1f : f1 ≠ f) by congruence.
    assert (Ng1f : g1 ≠ f) by congruence.
    assert (Ns1f : s1 ≠ f) by congruence.
    set (h1 := <[s1 := Heap.OState f1 g1]> (<[g1 := Heap.OSet ∅]> h0)).
    assert (H1s : h1 !! s1 = Some (Heap.OState f1 g1)).
    { unfold h1. by rewrite lookup_insert_eq. }
    assert (H1f1 : h1 !! f1 = Some (Heap.ODict ∅)).
    { unfold h1, h0. rewrite !lookup_insert_ne by done.
      by rewrite lookup_insert_eq. }
    assert (H1g1 : h1 !! g1 = Some (Heap.OSet ∅)).
    { unfold h1. rewrite lookup_insert_ne by done.
      by rewrite lookup_insert_eq. }
    assert (H1f : h1 !! f = Some (Heap.ODict ∅)).
    { unfold h1, h0. by rewrite !lookup_insert_ne by done. }
    exists s1, h1. split; [done|]. split.
    + apply view_Some. by exists f1, g1.
    + intros k v. unfold Heap.set_fact, Heap.state_at, Heap.dict_at.
      rewrite H1s. cbn [mbind option_bind]. rewrite H1f1.
      cbn [mbind option_bind]. eexists; split; [done|]. split.
      * apply view_Some. exists f1, g1. simpl.
        rewrite lookup_insert_eq, !lookup_insert_ne by done.
        split; [done|]. split; [reflexivity|done].
      * rewrite lookup_insert_ne by done. by rewrite H1f.
Qed.

Lemma State_init_shares_a_nonempty_dict_witness :
  demo_heap !! 1%positive = Some (Heap.ODict (facts demo_state))
  ∧ ∃ s1 h1, Heap.State_init (Some 1%positive) demo_heap = Some (s1, h1).
Proof.
  split; [reflexivity|].
  destruct (State_init_shares_a_nonempty_dict demo_heap 1%positive
              (facts demo_state) eq_refl) as [H _].
  destruct H as (s1 & h1 & _ & _ & E & _).
  - intros E. apply (f_equal (λ m : gmap string value, m !! "location_valid")) in E.
    vm_compute in E. discriminate.
  - eauto.
Defined.


(** ** Parameters of an action *)

Lemma extract_loop_lookup lower (required : list string)
    (ip : gmap string value) :
  ∀ (acc : gmap string value) k,
    ActionExecutor.extract_loop lower required ip acc !! k
    = match (if bool_decide (k ∈ required) then found_for lower ip k
             else None) with
      | Some v => Some v
      | None => acc !! k
      end.
Proof.
  induction required as [|p rest IH]; intros acc k;
    cbn [ActionExecutor.extract_loop].
  - rewrite bool_decide_eq_false_2; [done|]. apply not_elem_of_nil.
  - assert (Hstep : ∀ v, found_for lower ip p = Some v →
      ActionExecutor.extract_loop lower rest ip (<[p := v]> acc) !! k
      = match (if bool_decide (k ∈ p :: rest) then found_for lower ip k
               else None) with
        | Some w => Some w
        | None => acc !! k
        end).
    { intros v Hv. rewrite IH.
      destruct (decide (k = p)) as [->|Hne].
      - rewrite (bool_decide_eq_true_2 (p ∈ p :: rest)) by left.
        rewrite Hv. case_bool_decide; [done|]. by rewrite lookup_insert_eq.
      - rewrite lookup_insert_ne by done.
        case_bool_decide as H1; case_bool_decide as H2; try done.
        + destruct H2. by right.
        + apply elem_of_cons in H2 as [?|?]; done. }
    unfold found_for in Hstep.
    destruct (ip !! p) as [v|] eqn:E1; [by apply Hstep|].
    destruct (ip !! lower p) as [v|] eqn:E2; [by apply Hstep|].
    clear Hstep. rewrite IH. destruct (decide (k = p)) as [->|Hne].
    + rewrite (bool_decide_eq_true_2 (p ∈ p :: rest)) by left.
      unfold found_for. rewrite E1, E2.
      by case_bool_decide.
    + case_bool_decide as H1; case_bool_decide as H2; try done.
      * destruct H2. by right.
      * apply elem_of_cons in H2 as [?|?]; done.
Qed.

(** X16. The parameters handed to an action are exactly the parameters that
    the action lists and that the intent supplies under their own name or
    under their lower-cased name, the own name first; a parameter that the
    action does not list is never passed on, and one that the intent does
    not supply is left out. *)
Theorem extracted_parameters_are_the_listed_ones :
  ∀ (lower : string → string) (action : Action)
    (intent_parameters : gmap string value) (k : string),
    ActionExecutor._extract_action_parameters lower action intent_parameters
      !! k
    = if bool_decide (k ∈ default [] (act_parameters action))
      then found_for lower intent_parameters k
      else None.
Proof.
  intros lower action ip k. unfold ActionExecutor._extract_action_parameters.
  rewrite extract_loop_lookup, lookup_empty.
  case_bool_decide; [|done]. by destruct (found_for lower ip k).
Qed.

(** ** Candidate intents *)

(** X17. [manage_multi_intent_scenarios] keeps at most three intents, all of
    confidence above 0.6, in the order in which they were given: it returns
    the first three of the intents that pass the threshold. *)
Theorem multi_intents_at_most_three_confident :
  ∀ (intents : list Intent),
    length (IntentClassifier.manage_multi_intent_scenarios intents) ≤ 3
    ∧ Forall (λ i, PrimFloat.ltb IntentClassifier.c_0_6 (i_confidence i) = true)
        (IntentClassifier.manage_multi_intent_scenarios intents)
    ∧ IntentClassifier.manage_multi_intent_scenarios intents
      `sublist_of` intents
    ∧ (∀ i, i ∈ intents →
         PrimFloat.ltb IntentClassifier.c_0_6 (i_confidence i) = true →
         length (IntentClassifier.manage_multi_intent_scenarios intents) < 3 →
         i ∈ IntentClassifier.manage_multi_intent_scenarios intents).
Proof.
  intros intents. unfold IntentClassifier.manage_multi_intent_scenarios.
  set (ok := λ intent : Intent,
               PrimFloat.ltb IntentClassifier.c_0_6 (i_confidence intent)).
  assert (Hall : Forall (λ i, ok i = true) (List.filter ok intents)).
  { apply Forall_forall. intros i Hi. apply list_elem_of_In in Hi.
    by apply filter_In in Hi as [_ ?]. }
  assert (Hsub : List.filter ok intents `sublist_of` intents).
  { clear Hall. generalize ok. intros f.
    induction intents as [|i l IH]; simpl.
    - constructor.
    - destruct (f i); by constructor. }
  split; [|split; [|split]].
  - rewrite length_take. lia.
  - by apply Forall_take.
  - etrans; [apply sublist_take|done].
  - intros i Hin Hok Hlen. rewrite length_take in Hlen.
    rewrite take_ge by lia.
    apply list_elem_of_In, filter_In. split; [by apply list_elem_of_In|done].
Qed.

Lemma max_by_confidence_in first rest :
  IntentClassifier.max_by_confidence first rest ∈ first :: rest.
Proof.
  unfold IntentClassifier.max_by_confidence.
  revert first. induction rest as [|i rest IH]; intros first; simpl.
  - by left.
  - destruct (PrimFloat.ltb (i_confidence first) (i_confidence i)).
    + right. apply IH.
    + specialize (IH first). apply elem_of_cons in IH as [->|?].
      * by left.
      * right. by right.
Qed.

(** X18. [handle_ambiguity] only ever resolves to one of the candidates it
    was given, and to none when there is no candidate.  A single candidate
    is returned exactly when its confidence is above 0.7.  When some
    candidate is not conversational, the answer is the first candidate or
    none. *)
Theorem handle_ambiguity_picks_a_candidate :
  ∀ (intents : list Intent),
    (∀ i, IntentClassifier.handle_ambiguity intents = Some i → i ∈ intents)
    ∧ IntentClassifier.handle_ambiguity [] = None
    ∧ (∀ i0, intents = [i0] →
         IntentClassifier.handle_ambiguity intents
         = if PrimFloat.ltb IntentClassifier.c_0_7 (i_confidence i0)
           then Some i0 else None)
    ∧ (∀ i, IntentClassifier.handle_ambiguity intents = Some i →
         forallb (λ j, IntentClassifier.is_conversational (i_name j)) intents
         = false →
         head intents = Some i).
Proof.
  intros intents. split; [|split; [done|split]].
  - intros i H. destruct intents as [|i0 rest]; [done|].
    unfold IntentClassifier.handle_ambiguity in H.
    repeat match type of H with
           | (if ?c then _ else _) = _ => destruct c
           | match ?l with [] => _ | _ :: _ => _ end = _ => destruct l
           end; try discriminate H; injection H as <-;
      try (by left); apply max_by_confidence_in.
  - intros i0 ->. unfold IntentClassifier.handle_ambiguity.
    rewrite bool_decide_eq_true_2 by done. simpl.
    by destruct (PrimFloat.ltb IntentClassifier.c_0_7 (i_confidence i0)).
  - intros i H Hconv. destruct intents as [|i0 rest]; [done|].
    unfold IntentClassifier.handle_ambiguity in H. rewrite Hconv in H.
    rewrite andb_false_r in H. simpl.
    repeat match type of H with
           | (if ?c then _ else _) = _ => destruct c
           | match ?l with [] => _ | _ :: _ => _ end = _ => destruct l
           end; try discriminate H; by injection H as <-.
Qed.

(** ** The explanation of a plan *)

Lemma append_nonempty_r (a b : string) : b ≠ "" → (a +:+ b) ≠ "".
Proof. destruct a; simpl; [done|discriminate]. Qed.

Lemma explanation_parts_length i plan :
  length (ExplanationEngine.explanation_parts i plan) = length plan.
Proof.
  revert i. induction plan as [|a plan IH]; intros i; simpl; [done|].
  by rewrite IH.
Qed.

(** X19. [explain_plan] gives the empty text exactly for a plan of one
    action.  An empty plan gets the fixed apology, and a plan of two or more
    actions gets one numbered entry per action, joined by newlines. *)
Theorem explain_plan_empty_iff_single_action :
  ∀ (plan : list Action) (original_intent : string),
    (ExplanationEngine.explain_plan plan original_intent = ""
     ↔ length plan = 1)
    ∧ (2 ≤ length plan →
       ExplanationEngine.explain_plan plan original_intent
       = String.concat ExplanationEngine.newline
           (ExplanationEngine.explanation_parts 1 plan)
       ∧ length (ExplanationEngine.explanation_parts 1 plan) = length plan).
Proof.
  intros plan intent. split.
  - destruct plan as [|a [|b rest]]; simpl.
    + split; [discriminate|discriminate].
    + done.
    + split; [|intros H; lia].
      intros H. exfalso. revert H. apply append_nonempty_r.
      unfold ExplanationEngine.newline. simpl. discriminate.
  - intros Hlen. split; [|apply explanation_parts_length].
    destruct plan as [|a [|b rest]]; simpl in Hlen; try lia. reflexivity.
Qed.

(** ** The actions of a plan *)

Lemma plan_actions_in_catalog actions cs gs max o :
  AStarPlanner.plan_outcome actions cs gs max = Some o →
  Forall (λ a, a ∈ actions) (returned o).
Proof.
  intros Ho.
  destruct (plan_outcome_ok actions cs gs max)
    as (o' & Ho' & _ & Hshort & Hpost).
  rewrite Ho in Ho'. injection Ho' as <-.
  destruct (taken o) eqn:E.
  - destruct Hshort as [-> _]; [done|]. constructor.
  - destruct (plan_outcome_invariant actions gs
                (λ n, sound cs n
                      ∧ Forall (λ a, a ∈ actions)
                          (AStarPlanner.reconstruct_path n)))
      with (current_state := cs) (max_iterations := max) (o := o)
      as (n & [_ Hn] & -> & _); try done.
    + intros cur a g h f [Hs Hp] Hin Hc _. split; [by constructor|].
      unfold AStarPlanner.reconstruct_path in *. simpl.
      destruct (action_truthy a); [|done].
      rewrite (sound_path_app cs cur Hs [a]).
      apply Forall_app. split; [done|]. by constructor.
    + intros g h f. split; constructor.
  - destruct Hpost as (_ & _ & Ht); [done|]. rewrite E in Ht.
    destruct Ht as [-> _]. constructor.
Qed.

(** X20. Every action of a plan that [plan] returns is an entry of the
    catalog the planner was given, so that the executor can resolve it
    there. *)
Theorem plan_actions_come_from_the_catalog :
  ∀ (actions : list Action) (current_state goal_state : State)
    (max_iterations : Z) (p : list Action),
    AStarPlanner.plan actions current_state goal_state max_iterations = Some p →
    ∀ a, a ∈ p → a ∈ actions.
Proof.
  intros actions cs gs max p Hplan a Ha.
  unfold AStarPlanner.plan in Hplan.
  destruct (AStarPlanner.plan_outcome actions cs gs max) as [o|] eqn:Ho;
    [|done].
  simpl in Hplan. injection Hplan as <-.
  pose proof (plan_actions_in_catalog actions cs gs max o Ho) as Hall.
  rewrite Forall_forall in Hall. by apply Hall.
Qed.

Lemma plan_actions_come_from_the_catalog_witness :
  AStarPlanner.plan KnowledgeBase._initialize_actions scenario_B_state
    weather_goal 1000 = Some [KnowledgeBase.CheckWeather]
  ∧ KnowledgeBase.CheckWeather ∈ KnowledgeBase._initialize_actions.
Proof.
  assert (H : AStarPlanner.plan KnowledgeBase._initialize_actions
                scenario_B_state weather_goal 1000
              = Some [KnowledgeBase.CheckWeather]).
  { vm_compute. reflexivity. }
  split; [exact H|].
  apply (plan_actions_come_from_the_catalog _ _ _ _ _ H).
  by left.
Defined.

(** ** The mutators of a state object *)

Lemma mutate_view (h : Heap.heap) (self : Heap.loc) s m :
  Heap.view h self = Some s →
  ∃ h' f g,
    Heap.mutate self m h = Some h'
    ∧ h !! self = Some (Heap.OState f g)
    ∧ Heap.view h' self = Some (mutate_value m s)
    ∧ ∀ l, l ≠ f → l ≠ g → h' !! l = h !! l.
Proof.
  intros Hv. apply view_Some in Hv as (f & g & Hc & Hf & Hg).
  assert (Ncf : self ≠ f) by congruence.
  assert (Ncg : self ≠ g) by congruence.
  assert (Nfg : f ≠ g) by congruence.
  destruct s as [d gs]. simpl in Hf, Hg.
  destruct m as [k v|k|k|k]; simpl.
  - unfold Heap.set_fact, Heap.state_at, Heap.dict_at. rewrite Hc. simpl.
    rewrite Hf. simpl. eexists _, f, g. split; [done|]. split; [done|].
    split.
    + apply view_Some. exists f, g. simpl.
      rewrite lookup_insert_eq, !lookup_insert_ne by done. done.
    + intros l Hl _. by rewrite lookup_insert_ne.
  - unfold Heap.remove_fact, Heap.state_at, Heap.dict_at. rewrite Hc. simpl.
    rewrite Hf. simpl. unfold remove_fact, has_fact. simpl.
    destruct (d !! k) eqn:Ek.
    + eexists _, f, g. split; [done|]. split; [done|]. split.
      * apply view_Some. exists f, g. simpl.
        rewrite lookup_insert_eq, !lookup_insert_ne by done. done.
      * intros l Hl _. by rewrite lookup_insert_ne.
    + exists h, f, g. split; [done|]. split; [done|]. split; [|done].
      apply view_Some. by exists f, g.
  - unfold Heap.add_goal, Heap.state_at, Heap.set_at. rewrite Hc. simpl.
    rewrite Hg. simpl. eexists _, f, g. split; [done|]. split; [done|].
    split.
    + apply view_Some. exists f, g. simpl.
      rewrite lookup_insert_eq, !lookup_insert_ne by done. done.
    + intros l _ Hl. by rewrite lookup_insert_ne.
  - unfold Heap.remove_goal, Heap.state_at, Heap.set_at. rewrite Hc. simpl.
    rewrite Hg. simpl. eexists _, f, g. split; [done|]. split; [done|].
    split.
    + apply view_Some. exists f, g. simpl.
      rewrite lookup_insert_eq, !lookup_insert_ne by done. done.
    + intros l _ Hl. by rewrite lookup_insert_ne.
Qed.

(** X21. [set_fact], [remove_fact], [add_goal] and [remove_goal] on a state
    object never fail, write to nothing but the state's own facts dict or
    goals set, and leave the state holding: the fact with its new value and
    every other fact as before; no fact of the removed name ([remove_fact]
    of an absent fact changes nothing); the goal added; the goal removed
    ([remove_goal] of an absent goal changes nothing). *)
Theorem mutators_touch_only_their_own_entry :
  ∀ (h : Heap.heap) (self : Heap.loc) (s : State) (m : mutation),
    Heap.view h self = Some s →
    ∃ h' f g s',
      Heap.mutate self m h = Some h'
      ∧ h !! self = Some (Heap.OState f g)
      ∧ (∀ l, l ≠ f → l ≠ g → h' !! l = h !! l)
      ∧ Heap.view h' self = Some s'
      ∧ match m with
        | SetFact k v =>
            facts s' !! k = Some v ∧ goals s' = goals s
            ∧ ∀ k', k' ≠ k → facts s' !! k' = facts s !! k'
        | RemoveFact k =>
            facts s' !! k = None ∧ goals s' = goals s
            ∧ (∀ k', k' ≠ k → facts s' !! k' = facts s !! k')
            ∧ (facts s !! k = None → h' = h)
        | AddGoal g0 =>
            facts s' = facts s ∧ ∀ x, x ∈ goals s' ↔ x = g0 ∨ x ∈ goals s
        | RemoveGoal g0 =>
            facts s' = facts s ∧ ∀ x, x ∈ goals s' ↔ x ≠ g0 ∧ x ∈ goals s
        end.
Proof.
  intros h self s m Hv.
  destruct (mutate_view h self s m Hv) as (h' & f & g & Hm & Hs & Hv' & Hfr).
  exists h', f, g, (mutate_value m s).
  split; [exact Hm|]. split; [exact Hs|]. split; [exact Hfr|].
  split; [exact Hv'|].
  destruct m as [k v|k|g0|g0]; simpl.
  - split; [apply lookup_insert_eq|]. split; [done|].
    intros k' Hne. by rewrite lookup_insert_ne.
  - unfold remove_fact, has_fact.
    destruct (facts s !! k) eqn:Ek; simpl.
    + split; [apply lookup_delete_eq|]. split; [done|]. split; [|done].
      intros k' Hne. by rewrite lookup_delete_ne.
    + split; [done|]. split; [done|]. split; [done|]. intros _.
      simpl in Hm. unfold Heap.remove_fact, Heap.state_at, Heap.dict_at in Hm.
      apply view_Some in Hv as (f' & g' & Hc & Hf & Hg).
      rewrite Hc in Hm. simpl in Hm. rewrite Hf in Hm. simpl in Hm.
      rewrite Ek in Hm. by injection Hm.
  - split; [done|]. intros x. by rewrite elem_of_union, elem_of_singleton.
  - split; [done|]. intros x. rewrite elem_of_difference, elem_of_singleton.
    tauto.
Qed.

Lemma mutators_touch_only_their_own_entry_witness :
  Heap.view demo_heap 3%positive = Some demo_state
  ∧ ∃ h', Heap.mutate 3%positive (RemoveFact "location_valid") demo_heap
          = Some h'.
Proof.
  split; [reflexivity|].
  destruct (mutators_touch_only_their_own_entry demo_heap 3%positive
              demo_state (RemoveFact "location_valid") eq_refl)
    as (h' & _ & _ & _ & H & _).
  by exists h'.
Defined.
